(** * rpc.h: remote procedure calls and tree reductions of FASTlib

  A shallow embedding of [fastlib/u/garryb/nbr/rpc.h]: the blocking client
  call ([Rpc]), the service dispatcher ([RemoteObjectBackend]) and the tree
  reduction ([ReduceChannel]).

  Every member function becomes a computation in a small state monad over
  the object's members.  Calls into code outside the header (the transport
  of [rpc_sock.h], the [ot::] serialisation, the [Transaction] base class)
  are recorded, in program order, in an event trace.  [FATAL] ends a
  computation with the diagnostic and the state it was raised in. *)

From Stdlib Require Import ZArith Lia.
From Stdlib.Strings Require Import Byte.
From stdpp Require Import base list.

Set Warnings "-register-all".
Local Open Scope Z_scope.

(** ** Messages, topology, serialisation *)

(** [Message] of the transport: the channel it travels on, the peer at the
    other end (the destination of a message about to be sent, the sender of
    a message that was received) and the payload buffer. *)
Record Message : Type := mkMessage {
  channel : Z;
  peer : Z;
  data : list Byte.byte
}.

Definition data_size (m : Message) : Z := Z.of_nat (length (data m)).

#[export] Instance byte_eq_decision : EqDecision Byte.byte := Byte.byte_eq_dec.

#[export] Instance Message_eq_decision : EqDecision Message.
Proof. solve_decision. Defined.

(** [CreateMessage(peer, size)] of a transaction on channel [ch]: a buffer of
    [size] bytes whose contents are still to be written. *)
Definition CreateMessage (ch p size : Z) : Message :=
  mkMessage ch p (replicate (Z.to_nat size) Byte.x00).

(** Writing serialised bytes at the start of a message buffer, as
    [ot::PointerFreeze(obj, message->data())] does. *)
Definition write_data (bytes : list Byte.byte) (m : Message) : Message :=
  mkMessage (channel m) (peer m) (bytes ++ drop (length bytes) (data m)).

(** The [ot::] serialisation of a type: frozen size, freeze, thaw. *)
Class Freezable (T : Type) : Type := {
  PointerFrozenSize : T -> Z;
  PointerFreeze : T -> list Byte.byte;
  PointerThaw : list Byte.byte -> T
}.

(** What the header relies on: the frozen size is the number of bytes that
    freezing writes, and thawing reads back what was frozen. *)
Class FreezableLaws (T : Type) `{Freezable T} : Prop := {
  frozen_size_length : forall x : T,
    PointerFrozenSize x = Z.of_nat (length (PointerFreeze x));
  thaw_freeze : forall x : T, PointerThaw (PointerFreeze x) = x
}.

(** The process topology of [rpc_sock.h], as one process sees it:
    [rpc::n_children()], [rpc::child(i)], [rpc::is_root()], [rpc::parent()]. *)
Record Topology : Type := mkTopology {
  children : list Z;
  is_root : bool;
  parent : Z
}.

Definition n_children (rpc : Topology) : Z := Z.of_nat (length (children rpc)).

Definition child (rpc : Topology) (i : Z) : Z :=
  default 0 (children rpc !! Z.to_nat i).

(** ** Diagnostics, events, outcomes *)

(** The three [FATAL] calls of the header. *)
Inductive Diagnostic : Type :=
  | UnexpectedPeer (p ch : Z)
    (* "Message from peer #%d unexpected during reduce #%d" *)
  | MultipleMessages (p ch : Z) (old new : Message)
    (* "Multiple messages from peer #%d during reduce #%d: ..." *)
  | VirtualitySucks.
  (* "Virtuality sucks" *)

(** Calls that leave the header. [U] is what a call of the user's method
    ([Reduce], [HandleRequest]) is recorded with. *)
Inductive Event (U : Type) : Type :=
  | EvInit (ch : Z)                 (* Transaction::Init(channel) *)
  | EvCreateMessage (p size : Z)    (* CreateMessage(peer, size) *)
  | EvFreeze (bytes : list Byte.byte) (* ot::PointerFreeze(obj, buffer) *)
  | EvThaw (m : Message)            (* ot::PointerThaw<T>(m->data()) *)
  | EvConstruct                     (* a default-constructed local object *)
  | EvCall (u : U)                  (* the user's method is invoked *)
  | EvSend (m : Message)            (* Send(m) *)
  | EvDelete (m : Message)          (* delete m *)
  | EvDone                          (* Transaction::Done() *)
  | EvDonePeer (p : Z)              (* Transaction::Done(peer) *)
  | EvRegister (ch : Z)             (* rpc::Register(channel, this) *)
  | EvUnregister (ch : Z)           (* rpc::Unregister(channel) *)
  | EvCondDone                      (* DoneCondition::Done() *)
  | EvLock                          (* Mutex::Lock() *)
  | EvUnlock                        (* Mutex::Unlock() *)
  | EvSignal                        (* WaitCondition::Signal() *)
  | EvDeleteThis.                   (* delete this *)

Arguments EvInit {U}.
Arguments EvCreateMessage {U}.
Arguments EvFreeze {U}.
Arguments EvThaw {U}.
Arguments EvConstruct {U}.
Arguments EvCall {U}.
Arguments EvSend {U}.
Arguments EvDelete {U}.
Arguments EvDone {U}.
Arguments EvDonePeer {U}.
Arguments EvRegister {U}.
Arguments EvUnregister {U}.
Arguments EvCondDone {U}.
Arguments EvLock {U}.
Arguments EvUnlock {U}.
Arguments EvSignal {U}.
Arguments EvDeleteThis {U}.

(** An object together with the trace of what it has done so far. *)
Record World (F U : Type) : Type := mkWorld {
  this : F;
  trace : list (Event U)
}.
Arguments mkWorld {F U}.
Arguments this {F U}.
Arguments trace {F U}.

(** How a member function ends: it returns; [FATAL] aborts the process; the
    calling thread is suspended on a condition; or the behaviour is
    undefined (a NULL or out-of-range access). *)
Inductive Outcome (S A : Type) : Type :=
  | Returns (a : A) (s : S)
  | Aborts (d : Diagnostic) (s : S)
  | Blocks (s : S)
  | Undefined.
Arguments Returns {S A}.
Arguments Aborts {S A}.
Arguments Blocks {S A}.
Arguments Undefined {S A}.

Definition M (S A : Type) : Type := S -> Outcome S A.

Definition ret {S A} (a : A) : M S A := fun s => Returns a s.

Definition bind {S A B} (c : M S A) (k : A -> M S B) : M S B :=
  fun s =>
    match c s with
    | Returns a s' => k a s'
    | Aborts d s' => Aborts d s'
    | Blocks s' => Blocks s'
    | Undefined => Undefined
    end.

Declare Scope rpc_scope.
Delimit Scope rpc_scope with rpc.
Notation "'do' x <- c ; k" := (bind c (fun x => k))
  (at level 10, x name, c at level 100, k at level 200) : rpc_scope.
Notation "'run' c ; k" := (bind c (fun _ => k))
  (at level 10, c at level 100, k at level 200) : rpc_scope.
Local Open Scope rpc_scope.

Section Primitives.
Context {F U : Type}.

Definition get_this : M (World F U) F := fun w => Returns (this w) w.

Definition set_this (f : F -> F) : M (World F U) unit :=
  fun w => Returns tt (mkWorld (f (this w)) (trace w)).

Definition emit (e : Event U) : M (World F U) unit :=
  fun w => Returns tt (mkWorld (this w) (trace w ++ [e])).

Definition FATAL {A} (d : Diagnostic) : M (World F U) A :=
  fun w => Aborts d w.

Definition undefined {A} : M (World F U) A := fun _ => Undefined.

Definition get_trace : M (World F U) (list (Event U)) :=
  fun w => Returns (trace w) w.

(** [for (index_t i = lo; ...; i++) body(i)], [count] iterations. *)
Fixpoint for_up (count : nat) (i : Z) (body : Z -> M (World F U) unit)
  : M (World F U) unit :=
  match count with
  | O => ret tt
  | S count' => run body i; for_up count' (i + 1) body
  end.
End Primitives.

(** The events of a trace that matter to the outside. *)
Definition sent {U} (tr : list (Event U)) : list Message :=
  omap (fun e => match e with EvSend m => Some m | _ => None end) tr.

Definition unregistered {U} (tr : list (Event U)) : list Z :=
  omap (fun e => match e with EvUnregister ch => Some ch | _ => None end) tr.

Definition calls {U} (tr : list (Event U)) : list U :=
  omap (fun e => match e with EvCall u => Some u | _ => None end) tr.

Definition signals {U} (tr : list (Event U)) : nat :=
  length (omap (fun e => match e with EvCondDone => Some tt | _ => None end) tr).

(** The messages deleted and the peers marked done along a trace. *)
Definition deleted {U} (tr : list (Event U)) : list Message :=
  omap (fun e => match e with EvDelete m => Some m | _ => None end) tr.

Definition done_peers {U} (tr : list (Event U)) : list Z :=
  omap (fun e => match e with EvDonePeer p => Some p | _ => None end) tr.

(** Modelled from the spec: the channel registry of [rpc_sock.h] is not
    part of the header ("registerChannel(id, handlerFactory),
    unregisterChannel(id)": a table from channel ids to handlers).  Whether
    channel [ch] is in the table after the calls of a trace, when
    [before] tells whether it was in it at the start. *)
Definition registered_after {U} (tr : list (Event U)) (ch : Z)
    (before : bool) : bool :=
  fold_left
    (fun registered e =>
       match e with
       | EvRegister c => if c =? ch then true else registered
       | EvUnregister c => if c =? ch then false else registered
       | _ => registered
       end)
    tr before.

(** ** ReduceChannel::ReduceTransaction *)

Module ReduceTransaction.
Section ReduceTransaction.
Context {TData : Type} `{Freezable TData}.

(** [TReductor]: its method
    [Reduce(const TData& right_hand, TData* left_hand_to_modify) const],
    as the new value of [*left_hand_to_modify]. *)
Definition TReductor : Type := TData -> TData -> TData.

(** The members. [channel_] is the channel of the [Transaction] base;
    [data_] is the caller's value behind the pointer; [cond_] is whether
    the [DoneCondition] has been set.  [n_received_] is an [int] that is
    only ever incremented when a free slot is filled, so it stays within
    the number of children and is kept as an integer without wrap-around. *)
Record Members : Type := mkMembers {
  channel_ : Z;
  received_ : list (option Message);
  n_received_ : Z;
  data_ : TData;
  reductor_ : TReductor;
  cond_ : bool
}.

Definition set_received_ (f : list (option Message) -> list (option Message))
    (st : Members) : Members :=
  mkMembers (channel_ st) (f (received_ st)) (n_received_ st) (data_ st)
            (reductor_ st) (cond_ st).
Definition set_n_received_ (f : Z -> Z) (st : Members) : Members :=
  mkMembers (channel_ st) (received_ st) (f (n_received_ st)) (data_ st)
            (reductor_ st) (cond_ st).
Definition set_data_ (f : TData -> TData) (st : Members) : Members :=
  mkMembers (channel_ st) (received_ st) (n_received_ st) (f (data_ st))
            (reductor_ st) (cond_ st).
Definition set_cond_ (b : bool) (st : Members) : Members :=
  mkMembers (channel_ st) (received_ st) (n_received_ st) (data_ st)
            (reductor_ st) b.

(** A call of the reductor is recorded with the child's value and the
    accumulator it is applied to. *)
Definition W : Type := World Members (TData * TData).

Variable rpc : Topology.

(** One round of the loop of [CheckStatus_]. *)
Definition reduce_slot (i : Z) : M W unit :=
  do st <- get_this;
  match received_ st !! Z.to_nat i with
  | Some (Some m) =>
      run emit (EvThaw m);
      let subdata : TData := PointerThaw (data m) in
      run emit (EvCall (subdata, data_ st));
      run set_this (set_data_ (reductor_ st subdata));
      emit (EvDelete m)
  | _ => undefined
  end.

Definition CheckStatus_ : M W unit :=
  do st <- get_this;
  if n_received_ st =? n_children rpc then
    run for_up (Z.to_nat (n_children rpc)) 0 reduce_slot;
    run (if negb (is_root rpc) then
           do st <- get_this;
           let size := PointerFrozenSize (data_ st) in
           run emit (EvCreateMessage (parent rpc) size);
           let message_to_send := CreateMessage (channel_ st) (parent rpc) size in
           let bytes := PointerFreeze (data_ st) in
           run emit (EvFreeze bytes);
           emit (EvSend (write_data bytes message_to_send))
         else ret tt);
    do st <- get_this;
    run emit (EvUnregister (channel_ st));
    run emit EvDone;
    run set_this (set_cond_ true);
    emit EvCondDone
  else ret tt.

(** [Init] on a freshly constructed transaction: the constructor leaves
    the condition unset, [Init] assigns every other member. *)
Definition Init (channel_num : Z) (reductor_in : TReductor)
    (data_inout : TData) : Outcome W unit :=
  (run emit (EvInit channel_num);
   CheckStatus_)
    (mkWorld
       (mkMembers channel_num
                  (replicate (Z.to_nat (n_children rpc)) None)
                  0 data_inout reductor_in false)
       []).

Definition Wait : M W unit :=
  fun w => if cond_ (this w) then Returns tt w else Blocks w.

(** The search loop [for (i = rpc::n_children(); i--;)] with its [break]:
    the argument is the value the test [i--] reads, the result is the value
    of the signed [index_t i] after the loop, [-1] when no child matched. *)
Fixpoint find_child (p : Z) (i : nat) : Z :=
  match i with
  | O => -1
  | S i' =>
      if p =? child rpc (Z.of_nat i') then Z.of_nat i'
      else find_child p i'
  end.

(** The arguments of the second [FATAL] read [received_[i]->data_size()]
    and [received_[i]->channel()]: when the message of the slot has been
    deleted (by [CheckStatus_], which deletes those of all slots and leaves
    the pointers in place), that read is undefined.  A message is known by
    its contents: the transaction deletes no message but those of its
    slots, all of them in the finalisation. *)
Definition HandleMessage (message : Message) : M W unit :=
  let i := find_child (peer message) (Z.to_nat (n_children rpc)) in
  do st <- get_this;
  run (if i <? 0
       then FATAL (UnexpectedPeer (peer message) (channel_ st))
       else ret tt);
  match received_ st !! Z.to_nat i with
  | None => undefined
  | Some slot =>
      run match slot with
          | Some old =>
              do tr <- get_trace;
              if bool_decide (old ∈ deleted tr) then undefined
              else FATAL (MultipleMessages (peer message) (channel_ st)
                                           old message)
          | None => ret tt
          end;
      run set_this (set_received_ (<[Z.to_nat i := Some message]>));
      run emit (EvDonePeer (peer message));
      run set_this (set_n_received_ (fun n => n + 1));
      CheckStatus_
  end.

End ReduceTransaction.
Arguments Members TData : clear implicits.
Arguments W TData : clear implicits.
Arguments TReductor TData : clear implicits.
End ReduceTransaction.

(** ** ReduceChannel and rpc::Reduce *)

Module ReduceChannel.
Section ReduceChannel.
Context {TData : Type} `{Freezable TData}.
Variable rpc : Topology.

(** The channel's only member is [transaction_]. *)
Definition Init (channel_num : Z) (reductor : ReduceTransaction.TReductor TData)
    (data : TData) : Outcome (ReduceTransaction.W TData) unit :=
  match ReduceTransaction.Init rpc channel_num reductor data with
  | Returns _ w => emit (EvRegister channel_num) w
  | o => o
  end.

Definition Wait : M (ReduceTransaction.W TData) unit := ReduceTransaction.Wait.

Definition Doit (channel_num : Z) (reductor : ReduceTransaction.TReductor TData)
    (data : TData) : Outcome (ReduceTransaction.W TData) unit :=
  match Init channel_num reductor data with
  | Returns _ w => Wait w
  | o => o
  end.

(** [GetTransaction(message)] is [&transaction_]: every message of the
    channel goes to the one transaction. *)
Definition GetTransaction (message : Message) (w : ReduceTransaction.W TData)
  : ReduceTransaction.W TData := w.

(** The dispatch context hands the arriving messages, one at a time, to the
    transaction of the channel. *)
Fixpoint deliver (arrivals : list Message) : M (ReduceTransaction.W TData) unit :=
  match arrivals with
  | [] => ret tt
  | message :: rest =>
      run (fun w => ReduceTransaction.HandleMessage rpc message
                      (GetTransaction message w));
      deliver rest
  end.

(** [rpc::Reduce(channel_num, reductor, value)] on one process, with the
    messages that arrive while the caller is suspended in [Wait], in their
    order of arrival.  When [Doit] does not suspend, nothing is delivered. *)
Definition Reduce (channel_num : Z) (reductor : ReduceTransaction.TReductor TData)
    (value : TData) (arrivals : list Message)
  : Outcome (ReduceTransaction.W TData) unit :=
  match Doit channel_num reductor value with
  | Blocks w => (run deliver arrivals; Wait) w
  | o => o
  end.

End ReduceChannel.
End ReduceChannel.

(** ** Rpc and its RpcRequestTransaction *)

(** What the scheduler does next while a client call is in flight: the
    dispatch context delivers a message to the transaction, or the calling
    thread runs up to its next suspension. *)
Inductive Tick : Type :=
  | Deliver (m : Message)
  | Wake.

Module RpcRequestTransaction.
Section RpcRequestTransaction.
Context {RequestObject : Type} `{Freezable RequestObject}.

(** [channel_] is the channel of the [Transaction] base.  [mutex] and
    [cond] appear through their events. *)
Record Members : Type := mkMembers {
  channel_ : Z;
  response : option Message
}.

Definition set_channel_ (ch : Z) (st : Members) : Members :=
  mkMembers ch (response st).
Definition set_response (r : option Message) (st : Members) : Members :=
  mkMembers (channel_ st) r.

Definition W : Type := World Members unit.

(** [Doit] up to and including [response = NULL]: the value is the
    message that [Send] is called with next. *)
Definition Doit_prepare (channel peer : Z) (request : RequestObject)
  : M W Message :=
  run emit (EvInit channel);
  run set_this (set_channel_ channel);
  let size := PointerFrozenSize request in
  run emit (EvCreateMessage peer size);
  let message := CreateMessage channel peer size in
  let bytes := PointerFreeze request in
  run emit (EvFreeze bytes);
  run set_this (set_response None);
  ret (write_data bytes message).

(** [Doit] up to and including [Send(message)]. *)
Definition Doit_send (channel peer : Z) (request : RequestObject) : M W unit :=
  do message <- Doit_prepare channel peer request;
  emit (EvSend message).

Definition HandleMessage (message : Message) : M W unit :=
  run emit EvDone;
  run emit EvLock;
  run set_this (set_response (Some message));
  run emit EvSignal;
  emit EvUnlock.

(** The rest of [Doit] under a schedule: [mutex.Lock()], the loop
    [while (response == NULL) cond.Wait(&mutex)], [mutex.Unlock()] and
    [return response].  [locked] tells whether the thread is past
    [mutex.Lock()].  A schedule that ends leaves the thread suspended. *)
Fixpoint Doit_wait (ticks : list Tick) (locked : bool) : M W Message :=
  match ticks with
  | [] => fun w => Blocks w
  | Deliver m :: rest => run HandleMessage m; Doit_wait rest locked
  | Wake :: rest =>
      run (if locked then ret tt else emit EvLock);
      do st <- get_this;
      match response st with
      | None => Doit_wait rest true
      | Some r => run emit EvUnlock; ret r
      end
  end.

Definition Doit (channel peer : Z) (request : RequestObject)
    (ticks : list Tick) : M W Message :=
  run Doit_send channel peer request;
  Doit_wait ticks false.

End RpcRequestTransaction.
Arguments Members : clear implicits.
Arguments W : clear implicits.
End RpcRequestTransaction.

Module Rpc.
Section Rpc.
Context {RequestObject ResponseObject : Type}.
Context `{Freezable RequestObject} `{Freezable ResponseObject}.

(** The members [response_] and [response_object_], as [Request] sets
    them. *)
Record Members : Type := mkMembers {
  response_ : Message;
  response_object_ : ResponseObject
}.

(** [Request]: the transaction is a local object, [transaction] is its
    state as constructed (its members are indeterminate). *)
Definition Request (channel peer : Z) (request : RequestObject)
    (ticks : list Tick) : M RpcRequestTransaction.W Members :=
  do response <- RpcRequestTransaction.Doit channel peer request ticks;
  run emit (EvThaw response);
  ret (mkMembers response (PointerThaw (data response))).

End Rpc.
Arguments Members : clear implicits.
End Rpc.

(** ** RemoteObjectBackend and its RemoteObjectTransaction *)

Module RemoteObjectBackend.
Section RemoteObjectBackend.
Context {RequestObject ResponseObject : Type}.
Context `{Freezable RequestObject} `{Freezable ResponseObject}.

(** How a call of the virtual [HandleRequest(request, &response)] ends: with
    the response filled in, or in [FATAL]. *)
Inductive Handled : Type :=
  | Filled (response : ResponseObject)
  | HandlerFatal (d : Diagnostic).

(** A backend is its virtual method, from the request and the response as
    constructed. *)
Record Backend : Type := mkBackend {
  HandleRequest : RequestObject -> ResponseObject -> Handled
}.

(** [RemoteObjectBackend::HandleRequest], the method of a backend that does
    not override it. *)
Definition RemoteObjectBackend : Backend :=
  mkBackend (fun request response => HandlerFatal VirtualitySucks).

(** The members of [RemoteObjectTransaction]. *)
Record Members : Type := mkMembers {
  channel_ : Z;
  inner_ : Backend
}.

Definition W : Type := World Members RequestObject.

Definition Init (channel_num : Z) (inner_in : Backend) : W :=
  mkWorld (mkMembers channel_num inner_in) [EvInit channel_num].

(** [ResponseObject real_response;], the response as its default constructor
    leaves it. *)
Variable real_response : ResponseObject.

Definition HandleMessage (request : Message) : M W unit :=
  do st <- get_this;
  run emit (EvThaw request);
  let real_request : RequestObject := PointerThaw (data request) in
  run emit EvConstruct;
  run emit (EvCall real_request);
  match HandleRequest (inner_ st) real_request real_response with
  | HandlerFatal d => FATAL d
  | Filled real_response =>
      let size := PointerFrozenSize real_response in
      run emit (EvCreateMessage (peer request) size);
      let response := CreateMessage (channel_ st) (peer request) size in
      run emit (EvDelete request);
      let bytes := PointerFreeze real_response in
      run emit (EvFreeze bytes);
      run emit (EvSend (write_data bytes response));
      run emit EvDone;
      emit EvDeleteThis
  end.

Definition GetTransaction (this_backend : Backend) (message : Message) : W :=
  Init (channel message) this_backend.

End RemoteObjectBackend.
Arguments Handled : clear implicits.
Arguments Backend : clear implicits.
Arguments Members : clear implicits.
Arguments W : clear implicits.
End RemoteObjectBackend.

(** ** DataGetterBackend *)

Inductive Operation : Type := GET_DATA.

Record DataGetterRequest : Type := mkDataGetterRequest {
  operation : Operation
}.

Module DataGetterBackend.
Section DataGetterBackend.
Context {T : Type}.

(** The response is overwritten with a copy of the held value. *)
Definition HandleRequest (data_ : T) (request : DataGetterRequest)
    (response : T) : RemoteObjectBackend.Handled T :=
  RemoteObjectBackend.Filled data_.

(** The backend after [Init(data_in)]. *)
Definition Init (data_in : T)
  : RemoteObjectBackend.Backend DataGetterRequest T :=
  RemoteObjectBackend.mkBackend (HandleRequest data_in).

End DataGetterBackend.
End DataGetterBackend.

(** ** What the reduction transaction is expected to do *)

Module ReduceSpec.
Section ReduceSpec.
Import ReduceTransaction.
Context {TData : Type} `{Freezable TData}.
Variable rpc : Topology.

(** The number of non-NULL entries of [received_]. *)
Definition filled (slots : list (option Message)) : nat :=
  length (filter is_Some slots).

(** The accumulator after the messages [ms] have been reduced into [acc],
    first to last. *)
Definition reduced (reductor : TReductor TData) (ms : list Message)
    (acc : TData) : TData :=
  fold_left (fun a m => reductor (PointerThaw (data m)) a) ms acc.

(** The events of reducing [ms] into [acc]. *)
Fixpoint reduce_events (reductor : TReductor TData) (ms : list Message)
    (acc : TData) : list (Event (TData * TData)) :=
  match ms with
  | [] => []
  | m :: ms' =>
      [EvThaw m; EvCall (PointerThaw (data m), acc); EvDelete m]
        ++ reduce_events reductor ms' (reductor (PointerThaw (data m)) acc)
  end.

(** The message a process sends to its parent: its accumulator, frozen. *)
Definition upward_message (st : Members TData) : Message :=
  write_data (PointerFreeze (data_ st))
    (CreateMessage (channel_ st) (parent rpc) (PointerFrozenSize (data_ st))).

(** The events of the finalisation after the reduction loop. *)
Definition finalize_events (st : Members TData) : list (Event (TData * TData)) :=
  (if negb (is_root rpc)
   then [EvCreateMessage (parent rpc) (PointerFrozenSize (data_ st));
         EvFreeze (PointerFreeze (data_ st));
         EvSend (upward_message st)]
   else [])
  ++ [EvUnregister (channel_ st); EvDone; EvCondDone].

(** The transaction after finalisation, when its slots hold [ms]. *)
Definition finalized (ms : list Message) (w : W TData) : W TData :=
  let st :=
    set_data_ (fun acc => reduced (reductor_ (this w)) ms acc) (this w) in
  mkWorld (set_cond_ true st)
          (trace w ++ reduce_events (reductor_ (this w)) ms (data_ (this w))
                   ++ finalize_events st).

(** The transaction after [message] was stored in slot [i] and counted. *)
Definition stored (i : nat) (message : Message) (w : W TData) : W TData :=
  mkWorld (set_n_received_ (fun n => n + 1)
             (set_received_ (<[i := Some message]>) (this w)))
          (trace w ++ [EvDonePeer (peer message)]).

(** The transaction after the assignments of [Init], before its call of
    [CheckStatus_]. *)
Definition initial (ch : Z) (reductor : TReductor TData) (v : TData)
  : W TData :=
  mkWorld (mkMembers ch (replicate (Z.to_nat (n_children rpc)) None)
                     0 v reductor false)
          [EvInit ch].

(** The members agree with each other, with the topology and with the
    arguments of [Init]: the counter counts the filled slots, and a filled
    slot is the one the search selects for the sender of its message. *)
Record Slots (ch : Z) (reductor : TReductor TData) (w : W TData) : Prop :=
  mkSlots {
  slots_channel : channel_ (this w) = ch;
  slots_reductor : reductor_ (this w) = reductor;
  slots_length : length (received_ (this w)) = length (children rpc);
  slots_count : n_received_ (this w) = Z.of_nat (filled (received_ (this w)));
  slots_sender : forall (i : nat) (m : Message),
    received_ (this w) !! i = Some (Some m) ->
    find_child rpc (peer m) (length (children rpc)) = Z.of_nat i
}.

(** Before the finalisation: the accumulator is the caller's contribution,
    nothing was sent, unregistered or signalled. *)
Record Quiet (v : TData) (w : W TData) : Prop := mkQuiet {
  quiet_data : data_ (this w) = v;
  quiet_cond : cond_ (this w) = false;
  quiet_signals : signals (trace w) = 0%nat;
  quiet_sent : sent (trace w) = [];
  quiet_unregistered : unregistered (trace w) = [];
  quiet_calls : calls (trace w) = []
}.

(** After the finalisation: it has run once, on the messages of the slots
    by increasing index. *)
Record Final (reductor : TReductor TData) (v : TData) (w : W TData)
  : Prop := mkFinal {
  final_data : exists ms,
    received_ (this w) = Some <$> ms /\ data_ (this w) = reduced reductor ms v;
  final_cond : cond_ (this w) = true;
  final_signals : signals (trace w) = 1%nat;
  final_sent : sent (trace w) =
               if is_root rpc then [] else [upward_message (this w)];
  final_unregistered : unregistered (trace w) = [channel_ (this w)]
}.

(** The invariant of the transaction that [Init] was called on with
    [ch], [reductor] and [v]. *)
Definition Inv (ch : Z) (reductor : TReductor TData) (v : TData)
    (w : W TData) : Prop :=
  Slots ch reductor w /\
  if n_received_ (this w) =? n_children rpc
  then Final reductor v w else Quiet v w.

(** The states a transaction goes through: [Init], then any number of
    [HandleMessage] that return. *)
Inductive reachable (ch : Z) (reductor : TReductor TData) (v : TData)
  : W TData -> Prop :=
  | reachable_Init w :
      Init rpc ch reductor v = Returns tt w ->
      reachable ch reductor v w
  | reachable_HandleMessage w message w' :
      reachable ch reductor v w ->
      HandleMessage rpc message w = Returns tt w' ->
      reachable ch reductor v w'.

(** The slots after the messages [delivered] have been stored: slot [i]
    holds the message of [child(i)], if there is one. *)
Definition slots_of (delivered : list Message) : list (option Message) :=
  (fun c => List.find (fun m => bool_decide (peer m = c)) delivered)
    <$> children rpc.

End ReduceSpec.
End ReduceSpec.

(** ** A reduction over the whole tree of processes *)

(** Modelled from the spec: the transport of [rpc_sock.h] is not part of the
    header.  A message sent to a peer arrives there on the same channel with
    its [peer] naming the sender ("Message: channel id, sender peer id,
    payload bytes"). *)
Definition received_from (sender : Z) (m : Message) : Message :=
  mkMessage (channel m) sender (data m).

(** What reaches process [dest] of what a process [sender] has sent, if its
    call returned. *)
Definition arriving {S U A} (sender dest : Z)
    (o : Outcome (World S U) A) : list Message :=
  match o with
  | Returns _ w =>
      received_from sender <$>
        filter (fun m => peer m = dest) (sent (trace w))
  | _ => []
  end.

Module Tree.
Section Tree.
Context {TData : Type} `{Freezable TData}.

(** The spanning tree: every process with its rank, its contribution and
    the subtrees of its children, in the order of [rpc::child(i)]. *)
Inductive Tree : Type :=
  | Node (rank : Z) (value : TData) (subtrees : list Tree).

Definition rank (t : Tree) : Z := match t with Node r _ _ => r end.
Definition value (t : Tree) : TData := match t with Node _ v _ => v end.
Definition subtrees (t : Tree) : list Tree :=
  match t with Node _ _ ts => ts end.

(** The topology as the process at the root of [t] sees it; [up] is its
    parent, if it has one. *)
Definition topology (up : option Z) (t : Tree) : Topology :=
  mkTopology (map rank (subtrees t))
             (match up with None => true | Some _ => false end)
             (default 0 up).

(** Every process of [t] calls [rpc::Reduce] on channel [ch].  The messages
    of the children of process [me] reach it in the order
    [arrival me inbox], where [inbox] lists them by child index. *)
Fixpoint reduce_tree (arrival : Z -> list Message -> list Message) (ch : Z)
    (reductor : ReduceTransaction.TReductor TData) (up : option Z) (t : Tree)
  : Outcome (ReduceTransaction.W TData) unit :=
  match t with
  | Node me v kids =>
      let inbox :=
        flat_map (fun k => arriving (rank k) me
                             (reduce_tree arrival ch reductor (Some me) k))
                 kids in
      ReduceChannel.Reduce (topology up t) ch reductor v (arrival me inbox)
  end.

(** The value of a subtree: the contribution of its root, into which the
    values of the children's subtrees are reduced by increasing index. *)
Fixpoint subtree_result (reductor : ReduceTransaction.TReductor TData)
    (t : Tree) : TData :=
  match t with
  | Node _ v kids =>
      fold_left (fun acc k => reductor (subtree_result reductor k) acc) kids v
  end.

(** Contributions listed parent first, then the subtrees of the children by
    increasing index. *)
Fixpoint preorder (t : Tree) : list TData :=
  match t with
  | Node _ v kids => v :: flat_map preorder kids
  end.

(** Contributions listed children first, by increasing index, then the
    parent. *)
Fixpoint postorder (t : Tree) : list TData :=
  match t with
  | Node _ v kids => flat_map postorder kids ++ [v]
  end.

(** [v_1 (+) v_2 (+) ... (+) v_N] for the values in the order of the list. *)
Definition combined (op : TData -> TData -> TData) (vs : list TData)
  : option TData :=
  match vs with
  | [] => None
  | v :: rest => Some (fold_left op rest v)
  end.

(** The message in which the value of the subtree [k] reaches the parent. *)
Definition subtree_message (ch : Z)
    (reductor : ReduceTransaction.TReductor TData) (k : Tree) : Message :=
  mkMessage ch (rank k) (PointerFreeze (subtree_result reductor k)).

(** The processes of the tree, each with its parent, the root first. *)
Fixpoint processes (up : option Z) (t : Tree) : list (option Z * Tree) :=
  match t with
  | Node me v kids => (up, t) :: flat_map (processes (Some me)) kids
  end.

(** No process has two children of the same rank. *)
Inductive distinct_siblings : Tree -> Prop :=
  | distinct_node me v kids :
      NoDup (map rank kids) ->
      Forall distinct_siblings kids ->
      distinct_siblings (Node me v kids).

End Tree.
Arguments Tree TData : clear implicits.
End Tree.

(** ** Serialisations for the examples *)

(** Byte strings, frozen as they are. *)
#[export] Instance bytes_Freezable : Freezable (list Byte.byte) := {
  PointerFrozenSize bs := Z.of_nat (length bs);
  PointerFreeze bs := bs;
  PointerThaw bs := bs
}.

(** A 32-bit [int], frozen as its four bytes, least significant first. *)
Definition int_wrap (z : Z) : Z :=
  let u := z mod 2 ^ 32 in if u <? 2 ^ 31 then u else u - 2 ^ 32.

Definition byte_of_Z (z : Z) : Byte.byte :=
  default Byte.x00 (Byte.of_N (Z.to_N (z mod 256))).

Definition Z_of_byte (b : Byte.byte) : Z := Z.of_N (Byte.to_N b).

#[export] Instance int_Freezable : Freezable Z := {
  PointerFrozenSize _ := 4;
  PointerFreeze z := (fun k => byte_of_Z (Z.shiftr z (8 * k))) <$> [0; 1; 2; 3];
  PointerThaw bs :=
    int_wrap (foldr (fun b acc => Z_of_byte b + 256 * acc) 0 (take 4 bs))
}.

(** The request of the data getter is its operation tag, an [int]. *)
#[export] Instance DataGetterRequest_Freezable : Freezable DataGetterRequest := {
  PointerFrozenSize _ := 4;
  PointerFreeze _ := [Byte.x00; Byte.x00; Byte.x00; Byte.x00];
  PointerThaw _ := mkDataGetterRequest GET_DATA
}.

(** ** A client call against a service *)

Module Call.
Section Call.
Context {RequestObject ResponseObject : Type}.
Context `{Freezable RequestObject} `{Freezable ResponseObject}.

(** The process [client] calls [Rpc::Request(channel, server, request)]
    while [backend] is registered on [channel] at the process [server]:
    the request reaches the transaction that [GetTransaction] makes for it
    and the replies reach the transaction of the client.  The calling
    thread runs [early] times before the replies are delivered, once after
    them, and then as [rest] schedules.  [st] holds the members of the
    client's transaction as constructed. *)
Definition call (client server : Z)
    (backend : RemoteObjectBackend.Backend RequestObject ResponseObject)
    (real_response : ResponseObject)
    (channel : Z) (request : RequestObject)
    (st : RpcRequestTransaction.Members)
    (early : nat) (rest : list Tick)
  : Outcome RpcRequestTransaction.W (Rpc.Members ResponseObject) :=
  let transaction := mkWorld st [] in
  let requests :=
    arriving client server
      (RpcRequestTransaction.Doit_send channel server request transaction) in
  let replies :=
    flat_map
      (fun m => arriving server client
                  (RemoteObjectBackend.HandleMessage real_response m
                     (RemoteObjectBackend.GetTransaction backend m)))
      requests in
  Rpc.Request channel server request
              (replicate early Wake ++ (Deliver <$> replies) ++ Wake :: rest)
              transaction.

End Call.
End Call.

(** ** The steps of the dispatcher, as the specification orders them *)

Inductive Step : Type :=
  | Thaws | Frees | Constructs | Invokes | Allocates | Serialises | Sends
  | Destroys.

Definition step_of {U} (e : Event U) : option Step :=
  match e with
  | EvThaw _ => Some Thaws
  | EvDelete _ => Some Frees
  | EvConstruct => Some Constructs
  | EvCall _ => Some Invokes
  | EvCreateMessage _ _ => Some Allocates
  | EvFreeze _ => Some Serialises
  | EvSend _ => Some Sends
  | EvDeleteThis => Some Destroys
  | _ => None
  end.

Definition steps {U} (tr : list (Event U)) : list Step := omap step_of tr.

(** "thaw the payload, free the request message right after thawing,
    construct a default-initialized response, invoke the user handler,
    serialize the response into a newly sized reply message, send exactly
    one reply, destroy the transient per-request transaction" *)
Definition claimed_steps : list Step :=
  [Thaws; Frees; Constructs; Invokes; Allocates; Serialises; Sends; Destroys].

(** A data getter that holds one byte, a request for it from process 3 on
    channel 9. *)
Definition getter : RemoteObjectBackend.Backend DataGetterRequest (list Byte.byte) :=
  DataGetterBackend.Init [Byte.x05].

Definition get_request : Message :=
  mkMessage 9 3 (PointerFreeze (mkDataGetterRequest GET_DATA)).

(** The reductor of the three-process scenario:
    [combine(incoming, acc) = incoming - acc] on [int]. *)
Definition subtract_reductor : ReduceTransaction.TReductor Z :=
  fun incoming acc => int_wrap (incoming - acc).

(** Byte strings are reduced by concatenation, the accumulator on the
    left or on the right. *)
Definition append_reductor : ReduceTransaction.TReductor (list Byte.byte) :=
  fun incoming acc => acc ++ incoming.

Definition prepend_reductor : ReduceTransaction.TReductor (list Byte.byte) :=
  fun incoming acc => incoming ++ acc.

(** A root with the children 1 and 2, and a leaf below process 0. *)
Definition root_of_two : Topology := mkTopology [1; 2] true 0.
Definition leaf_below_0 : Topology := mkTopology [] false 0.

(** The three processes of the scenario: the root R = 0 contributes 10, its
    children A = 1 and B = 2 contribute 3 and 4. *)
Definition three_processes : Tree.Tree Z :=
  Tree.Node 0 10 [Tree.Node 1 3 []; Tree.Node 2 4 []].

(** Three processes that contribute the strings r, a and b. *)
Definition three_strings : Tree.Tree (list Byte.byte) :=
  Tree.Node 0 [Byte.x72] [Tree.Node 1 [Byte.x61] []; Tree.Node 2 [Byte.x62] []].

(** The caller's value after [rpc::Reduce], if it returned. *)
Definition value_after {TData : Type}
    (o : Outcome (ReduceTransaction.W TData) unit) : option TData :=
  match o with
  | Returns _ w => Some (ReduceTransaction.data_ (this w))
  | _ => None
  end.

(** The calls of the reductor, if [rpc::Reduce] returned. *)
Definition calls_after {TData : Type}
    (o : Outcome (ReduceTransaction.W TData) unit) : list (TData * TData) :=
  match o with
  | Returns _ w => calls (trace w)
  | _ => []
  end.

(** A process below process 0 with the children 3 and 4. *)
Definition inner_of_two : Topology := mkTopology [3; 4] false 0.

(** A root without children. *)
Definition single_root : Topology := mkTopology [] true 0.

(** The root of two children after [Init] on channel 7 with the string r
    and the message of process 1, which holds the string a. *)
Definition waiting_for_2 : ReduceTransaction.W (list Byte.byte) :=
  mkWorld
    (ReduceTransaction.mkMembers 7 [Some (mkMessage 7 1 [Byte.x61]); None] 1
       [Byte.x72] append_reductor false)
    [EvInit 7; EvDonePeer 1].

(** The same root after the message of process 2, which holds the string
    b: the finalisation has run and both messages are deleted. *)
Definition both_reported : ReduceTransaction.W (list Byte.byte) :=
  mkWorld
    (ReduceTransaction.mkMembers 7
       [Some (mkMessage 7 1 [Byte.x61]); Some (mkMessage 7 2 [Byte.x62])] 2
       [Byte.x72; Byte.x61; Byte.x62] append_reductor true)
    [EvInit 7; EvDonePeer 1; EvDonePeer 2;
     EvThaw (mkMessage 7 1 [Byte.x61]);
     EvCall ([Byte.x61], [Byte.x72]);
     EvDelete (mkMessage 7 1 [Byte.x61]);
     EvThaw (mkMessage 7 2 [Byte.x62]);
     EvCall ([Byte.x62], [Byte.x72; Byte.x61]);
     EvDelete (mkMessage 7 2 [Byte.x62]);
     EvUnregister 7; EvDone; EvCondDone].

(** A topology that names process 1 twice among the children, and its
    transaction after [Init] on channel 7 and a message of process 1. *)
Definition twins : Topology := mkTopology [1; 1] true 0.

Definition twins_after_one : ReduceTransaction.W (list Byte.byte) :=
  mkWorld
    (ReduceTransaction.mkMembers 7 [None; Some (mkMessage 7 1 [Byte.x61])] 1
       [Byte.x72] append_reductor false)
    [EvInit 7; EvDonePeer 1].

(** What a process has sent when [rpc::Reduce] returned. *)
Definition sent_after {TData : Type}
    (o : Outcome (ReduceTransaction.W TData) unit) : list Message :=
  match o with
  | Returns _ w => sent (trace w)
  | _ => []
  end.

(** The messages of a reduction over the tree [t], process by process. *)
Definition all_sent {TData : Type} `{Freezable TData}
    (arrival : Z -> list Message -> list Message) (ch : Z)
    (reductor : ReduceTransaction.TReductor TData) (t : Tree.Tree TData)
  : list Message :=
  flat_map (fun p => sent_after (Tree.reduce_tree arrival ch reductor
                                   (fst p) (snd p)))
           (Tree.processes None t).

(** ** rpc::GetRemoteData *)

Module RemoteData.
Section RemoteData.
Context {T : Type} `{Freezable DataGetterRequest} `{Freezable T}.

(** [~Rpc()]: [if (response_ != NULL) delete response_].  After [Request]
    the member is the message that [Doit] returned, which is not NULL. *)
Definition Rpc_destructor (members : Rpc.Members T)
  : M RpcRequestTransaction.W unit :=
  emit (EvDelete (Rpc.response_ members)).

(** [GetRemoteData(channel, peer, result)]: the request is built, the
    constructor of [Rpc<T>] calls [Request], [result->Copy] copies the
    thawed response, and the [Rpc<T>] goes out of scope.  The value is
    [*result]. *)
Definition GetRemoteData (channel peer : Z) (ticks : list Tick)
  : M RpcRequestTransaction.W T :=
  let request := mkDataGetterRequest GET_DATA in
  do response <- Rpc.Request channel peer request ticks;
  let result := Rpc.response_object_ response in
  run Rpc_destructor response;
  ret result.

(** The process [client] calls [GetRemoteData(channel, server, result)]
    while a [DataGetterBackend] that holds [held] is registered on
    [channel] at the process [server].  The calling thread runs [early]
    times before the replies are delivered, once after them, and then as
    [rest] schedules. *)
Definition fetch (client server channel : Z) (held real_response : T)
    (st : RpcRequestTransaction.Members)
    (early : nat) (rest : list Tick)
  : Outcome RpcRequestTransaction.W T :=
  let transaction := mkWorld st [] in
  let requests :=
    arriving client server
      (RpcRequestTransaction.Doit_send channel server
         (mkDataGetterRequest GET_DATA) transaction) in
  let replies :=
    flat_map
      (fun m => arriving server client
                  (RemoteObjectBackend.HandleMessage real_response m
                     (RemoteObjectBackend.GetTransaction
                        (DataGetterBackend.Init held) m)))
      requests in
  GetRemoteData channel server
    (replicate early Wake ++ (Deliver <$> replies) ++ Wake :: rest)
    transaction.

End RemoteData.
End RemoteData.

(** ** DictionaryEncodingPolicy (dictionary_encoding_policy.hpp) *)

(** [MatType], the matrix type the policy is instantiated with ([arma::mat]
    or [arma::sp_mat]), through what the policy uses of it:
    [output.zeros(rows, cols)], the element [output(row, col)] read and
    assigned, and the conversion of a [size_t] to an element. *)
Class MatType (Mat Elem : Type) : Type := {
  n_rows : Mat -> nat;
  n_cols : Mat -> nat;
  mat_zeros : Mat -> nat -> nat -> Mat;
  mat_at : Mat -> nat -> nat -> Elem;
  mat_assign : Mat -> nat -> nat -> Elem -> Mat;
  of_size_t : N -> Elem;
  zero : Elem
}.

(** What the policy relies on, for indices within the matrix: [zeros]
    sets the size and every element to zero, an assignment changes the one
    element and nothing else. *)
Class MatTypeLaws (Mat Elem : Type) `{MatType Mat Elem} : Prop := {
  zeros_rows : forall (m : Mat) r c, n_rows (mat_zeros m r c) = r;
  zeros_cols : forall (m : Mat) r c, n_cols (mat_zeros m r c) = c;
  zeros_at : forall (m : Mat) r c i j,
    (i < r)%nat -> (j < c)%nat -> mat_at (mat_zeros m r c) i j = zero;
  assign_rows : forall (m : Mat) i j x, n_rows (mat_assign m i j x) = n_rows m;
  assign_cols : forall (m : Mat) i j x, n_cols (mat_assign m i j x) = n_cols m;
  assign_at : forall (m : Mat) i j x,
    (i < n_rows m)%nat -> (j < n_cols m)%nat ->
    mat_at (mat_assign m i j x) i j = x;
  assign_other : forall (m : Mat) i j x i' j',
    (i', j') <> (i, j) ->
    mat_at (mat_assign m i j x) i' j' = mat_at m i' j'
}.

Module DictionaryEncodingPolicy.
Section DictionaryEncodingPolicy.
Context {Mat Elem : Type} `{MatType Mat Elem}.

Definition InitMatrix (output : Mat) (datasetSize maxNumTokens : nat)
    (dictionarySize : nat) : Mat :=
  mat_zeros output datasetSize maxNumTokens.

Definition Encode (output : Mat) (value : N) (row col : nat) : Mat :=
  mat_assign output row col (of_size_t value).

(** The overload for [std::vector<size_t>]: [output.push_back(value)]. *)
Definition Encode_vector (output : list N) (value : N) : list N :=
  output ++ [value].

Definition onePassEncoding : bool := true.

(** The tokens of the string number [row] are encoded one after the other,
    the first at column [col]. *)
Fixpoint encode_tokens (output : Mat) (row col : nat) (values : list N)
  : Mat :=
  match values with
  | [] => output
  | value :: rest => encode_tokens (Encode output value row col) row (S col) rest
  end.

End DictionaryEncodingPolicy.
End DictionaryEncodingPolicy.

(** A dense matrix of integers for the examples: its size and its
    elements by row and column. *)
Record DenseMatrix : Type := mkDense {
  dense_rows : nat;
  dense_cols : nat;
  dense_at : nat -> nat -> Z
}.

#[export] Instance DenseMatrix_MatType : MatType DenseMatrix Z := {
  n_rows := dense_rows;
  n_cols := dense_cols;
  mat_zeros _ r c := mkDense r c (fun _ _ => 0);
  mat_at := dense_at;
  mat_assign m i j x :=
    mkDense (dense_rows m) (dense_cols m)
      (fun i' j' => if (i' =? i)%nat && (j' =? j)%nat then x
                    else dense_at m i' j');
  of_size_t := Z.of_N;
  zero := 0
}.

(** * Properties *)

(** ** The serialisations of the examples obey the laws *)

#[export] Instance bytes_FreezableLaws : FreezableLaws (list Byte.byte).
Proof. by split. Qed.

#[export] Instance DataGetterRequest_FreezableLaws :
  FreezableLaws DataGetterRequest.
Proof. split; [done|]. by intros [[]]. Qed.


Section ReduceTransactionProperties.
Import ReduceTransaction ReduceSpec.
Context {TData : Type} `{Freezable TData}.
Variable rpc : Topology.

Implicit Types (w : W TData) (m message : Message) (ms : list Message).

Lemma for_up_reduce_slot ms : forall (i : nat) w post,
  drop i (received_ (this w)) = (Some <$> ms) ++ post ->
  for_up (length ms) (Z.of_nat i) reduce_slot w =
  Returns tt
    (mkWorld
       (set_data_ (fun acc => reduced (reductor_ (this w)) ms acc) (this w))
       (trace w ++ reduce_events (reductor_ (this w)) ms (data_ (this w)))).
Proof.
  induction ms as [|m ms IH]; intros i [[ch slots n d r c] tr] post Hdrop;
    simpl in *.
  - unfold ret, set_data_, reduced. simpl. by rewrite app_nil_r.
  - assert (Hi : slots !! i = Some (Some m)).
    { rewrite <- (Nat.add_0_r i), <- lookup_drop, Hdrop. done. }
    assert (Hdrop' : drop (S i) slots = (Some <$> ms) ++ post).
    { rewrite <- Nat.add_1_r, <- drop_drop, Hdrop. done. }
    unfold bind at 1. unfold reduce_slot at 1.
    unfold bind, get_this, emit, set_this; simpl.
    rewrite Nat2Z.id, Hi. simpl.
    replace (Z.of_nat i + 1) with (Z.of_nat (S i)) by lia.
    rewrite (IH (S i) _ post); simpl; [|done].
    unfold set_data_, reduced; simpl.
    by rewrite <- !app_assoc.
Qed.

Lemma filled_le (slots : list (option Message)) :
  (filled slots <= length slots)%nat.
Proof. apply length_filter. Qed.

Lemma filled_all (slots : list (option Message)) :
  filled slots = length slots -> exists ms, slots = Some <$> ms.
Proof.
  unfold filled. induction slots as [|[m|] slots IH]; intros Hlen.
  - by exists [].
  - rewrite filter_cons_True in Hlen by done. simpl in Hlen.
    destruct IH as [ms ->]; [lia|]. by exists (m :: ms).
  - rewrite filter_cons_False in Hlen by (by intros [? ?]).
    pose proof (length_filter is_Some slots). simpl in Hlen. lia.
Qed.

Lemma filled_Forall (slots : list (option Message)) :
  Forall is_Some slots -> filled slots = length slots.
Proof.
  unfold filled. induction 1 as [|s slots Hs _ IH]; [done|].
  rewrite filter_cons_True by done. simpl. by rewrite IH.
Qed.

Lemma filled_Some ms : filled (Some <$> ms) = length ms.
Proof.
  unfold filled. induction ms as [|m ms IH]; [done|].
  rewrite fmap_cons, filter_cons_True by done. simpl. by rewrite IH.
Qed.

Lemma filled_replicate_None (k : nat) :
  filled (replicate k (@None Message)) = 0%nat.
Proof.
  unfold filled. induction k as [|k IH]; [done|]. simpl.
  by rewrite filter_cons_False by (by intros [? ?]).
Qed.

Lemma filled_insert (slots : list (option Message)) (i : nat) m :
  slots !! i = Some None ->
  filled (<[i := Some m]> slots) = S (filled slots).
Proof.
  intros Hi. unfold filled.
  pose proof (take_drop_middle slots i None Hi) as Hmid.
  assert (Hsplit : length (filter is_Some slots) =
                   length (filter is_Some
                             (take i slots ++ None :: drop (S i) slots)))
    by (by rewrite Hmid).
  rewrite Hsplit, insert_take_drop by (by eapply lookup_lt_Some).
  rewrite !filter_app, !length_app.
  rewrite filter_cons_True by done.
  rewrite filter_cons_False by (by intros [? ?]).
  simpl. lia.
Qed.

(** [CheckStatus_] does nothing while a message is missing. *)
Lemma CheckStatus_waiting w :
  n_received_ (this w) <> n_children rpc ->
  CheckStatus_ rpc w = Returns tt w.
Proof.
  intros Hn. unfold CheckStatus_, bind, get_this.
  apply Z.eqb_neq in Hn. by rewrite Hn.
Qed.

(** [CheckStatus_] finalises once every slot is filled. *)
Lemma CheckStatus_complete w ms :
  n_received_ (this w) = n_children rpc ->
  received_ (this w) = Some <$> ms ->
  length ms = length (children rpc) ->
  CheckStatus_ rpc w = Returns tt (finalized rpc ms w).
Proof.
  intros Hn Hslots Hlen. unfold CheckStatus_.
  unfold bind at 1. unfold get_this at 1.
  rewrite (proj2 (Z.eqb_eq _ _) Hn).
  unfold bind at 1. unfold n_children. rewrite Nat2Z.id, <- Hlen.
  assert (Hloop := for_up_reduce_slot ms 0 w []).
  change (Z.of_nat 0) with 0 in Hloop.
  rewrite Hloop by (simpl; by rewrite Hslots, app_nil_r). clear Hloop.
  destruct w as [[ch slots n d r c] tr]. simpl in *.
  unfold finalized, finalize_events, upward_message; simpl.
  destruct (is_root rpc); simpl;
    unfold bind, get_this, emit, set_this, ret; simpl;
    by rewrite <- !app_assoc.
Qed.

Lemma find_child_spec (p : Z) (k : nat) :
  (k <= length (children rpc))%nat ->
  (find_child rpc p k = -1 /\
   forall i, (i < k)%nat -> children rpc !! i <> Some p) \/
  (exists i, find_child rpc p k = Z.of_nat i /\ (i < k)%nat /\
             children rpc !! i = Some p).
Proof.
  induction k as [|k IH]; intros Hk; simpl.
  - left. split; [done|]. intros i Hi. lia.
  - unfold child. rewrite Nat2Z.id.
    destruct (lookup_lt_is_Some_2 (children rpc) k) as [c Hc]; [lia|].
    rewrite Hc. simpl. destruct (Z.eqb_spec p c) as [->|Hne].
    + right. exists k. split; [done|]. split; [lia|done].
    + destruct IH as [[Hf Hnone]|(i & Hf & Hi & Hci)]; [lia| |].
      * left. split; [done|]. intros i Hi.
        destruct (decide (i = k)) as [->|]; [congruence|]. apply Hnone. lia.
      * right. exists i. split; [done|]. split; [lia|done].
Qed.

(** What a call of [HandleMessage] that returns has done. *)
Lemma HandleMessage_Returns message w w' :
  HandleMessage rpc message w = Returns tt w' ->
  exists i : nat,
    find_child rpc (peer message) (length (children rpc)) = Z.of_nat i /\
    children rpc !! i = Some (peer message) /\
    received_ (this w) !! i = Some None /\
    CheckStatus_ rpc (stored i message w) = Returns tt w'.
Proof.
  unfold HandleMessage, n_children. rewrite Nat2Z.id.
  destruct (find_child_spec (peer message) (length (children rpc)))
    as [[Hf _]|(i & Hf & Hi & Hci)]; [done| |]; rewrite Hf.
  - unfold bind, get_this, FATAL. simpl. done.
  - unfold bind at 1. unfold get_this at 1.
    destruct (Z.ltb_spec (Z.of_nat i) 0) as [?|_]; [lia|].
    unfold bind at 1. unfold ret at 1. rewrite Nat2Z.id.
    destruct (received_ (this w) !! i) as [[old|]|] eqn:Hslot;
      [|intros Hrun; exists i; by repeat split|by unfold undefined].
    unfold bind, get_trace, FATAL, undefined.
    by destruct (bool_decide (old ∈ deleted (trace w))).
Qed.

Lemma signals_app {U} (tr1 tr2 : list (Event U)) :
  signals (tr1 ++ tr2) = (signals tr1 + signals tr2)%nat.
Proof. unfold signals. by rewrite omap_app, length_app. Qed.

Lemma sent_app {U} (tr1 tr2 : list (Event U)) :
  sent (tr1 ++ tr2) = sent tr1 ++ sent tr2.
Proof. apply omap_app. Qed.

Lemma unregistered_app {U} (tr1 tr2 : list (Event U)) :
  unregistered (tr1 ++ tr2) = unregistered tr1 ++ unregistered tr2.
Proof. apply omap_app. Qed.

Lemma reduce_events_quiet (r : TReductor TData) ms : forall acc,
  signals (reduce_events r ms acc) = 0%nat /\
  sent (reduce_events r ms acc) = [] /\
  unregistered (reduce_events r ms acc) = [].
Proof.
  induction ms as [|m ms IH]; intros acc; [done|].
  destruct (IH (r (PointerThaw (data m)) acc)) as (Hs & Hm & Hu).
  cbn [reduce_events].
  rewrite signals_app, sent_app, unregistered_app, Hs, Hm, Hu. done.
Qed.

Lemma calls_app {U} (tr1 tr2 : list (Event U)) :
  calls (tr1 ++ tr2) = calls tr1 ++ calls tr2.
Proof. apply omap_app. Qed.

Lemma Init_unfold ch (r : TReductor TData) v :
  Init rpc ch r v = CheckStatus_ rpc (initial rpc ch r v).
Proof. reflexivity. Qed.

Lemma initial_Slots ch (r : TReductor TData) v :
  Slots rpc ch r (initial rpc ch r v).
Proof.
  split; simpl; try done.
  - unfold n_children. by rewrite length_replicate, Nat2Z.id.
  - by rewrite filled_replicate_None.
  - intros i m Hi. apply lookup_replicate in Hi as [? _]. done.
Qed.

Lemma initial_Quiet ch (r : TReductor TData) v :
  Quiet v (initial rpc ch r v).
Proof. by split. Qed.

(** From a consistent transaction that has not finalised, [CheckStatus_]
    returns and establishes the invariant; it leaves the slots alone. *)
Lemma CheckStatus_Inv ch (r : TReductor TData) v w :
  Slots rpc ch r w -> Quiet v w ->
  exists w', CheckStatus_ rpc w = Returns tt w' /\ Inv rpc ch r v w' /\
             (n_received_ (this w) <> n_children rpc -> w' = w) /\
             received_ (this w') = received_ (this w).
Proof.
  intros HS HQ. destruct (Z.eq_dec (n_received_ (this w)) (n_children rpc))
    as [Heq|Hne].
  - destruct (filled_all (received_ (this w))) as [ms Hms].
    { destruct HS as [_ _ Hl Hc _]. unfold n_children in Heq. lia. }
    assert (Hlen : length ms = length (children rpc)).
    { destruct HS as [_ _ Hl _ _]. by rewrite Hms, length_fmap in Hl. }
    exists (finalized rpc ms w). split; [by apply CheckStatus_complete|].
    destruct HS as [Hch Hr Hl Hc Hp], HQ as [Hd Hcond Hsig Hsent Hunr Hcalls].
    destruct (reduce_events_quiet (reductor_ (this w)) ms (data_ (this w)))
      as (Hs' & Hm' & Hu').
    repeat split; try done; simpl.
    rewrite (proj2 (Z.eqb_eq _ _) Heq).
    split; simpl.
    + exists ms. by rewrite Hr, Hd.
    + done.
    + rewrite !signals_app, Hsig, Hs'. unfold finalize_events.
      destruct (is_root rpc); done.
    + rewrite !sent_app, Hsent, Hm'. unfold finalize_events.
      destruct (is_root rpc); done.
    + rewrite !unregistered_app, Hunr, Hu'. unfold finalize_events.
      destruct (is_root rpc); done.
  - exists w. split; [by apply CheckStatus_waiting|].
    repeat split; try done; try apply HS.
    apply Z.eqb_neq in Hne. by rewrite Hne.
Qed.

(** [Init] returns and establishes the invariant. *)
Lemma Init_Inv ch (r : TReductor TData) v :
  exists w, Init rpc ch r v = Returns tt w /\ Inv rpc ch r v w.
Proof.
  destruct (CheckStatus_Inv ch r v (initial rpc ch r v))
    as (w & Hrun & HI & _).
  - apply initial_Slots.
  - apply initial_Quiet.
  - exists w. by rewrite Init_unfold.
Qed.

(** A slot is free only before the finalisation. *)
Lemma Inv_free_slot ch (r : TReductor TData) v w (i : nat) :
  Inv rpc ch r v w -> received_ (this w) !! i = Some None ->
  n_received_ (this w) < n_children rpc /\ Quiet v w.
Proof.
  intros [[_ _ Hl Hc Hp] HF] Hi.
  assert (Hlt : (filled (received_ (this w)) < length (received_ (this w)))%nat).
  { pose proof (filled_le (<[i := Some (mkMessage 0 0 [])]> (received_ (this w))))
      as Hle.
    rewrite (filled_insert _ _ _ Hi), length_insert in Hle. lia. }
  assert (Hn : n_received_ (this w) < n_children rpc)
    by (unfold n_children; lia).
  split; [done|].
  destruct (Z.eqb_spec (n_received_ (this w)) (n_children rpc)); [lia|done].
Qed.

Lemma stored_Slots ch (r : TReductor TData) w (i : nat) message :
  Slots rpc ch r w ->
  find_child rpc (peer message) (length (children rpc)) = Z.of_nat i ->
  received_ (this w) !! i = Some None ->
  Slots rpc ch r (stored i message w).
Proof.
  intros [Hch Hr Hl Hc Hp] Hci Hi. split; simpl; try done.
  - by rewrite length_insert.
  - rewrite (filled_insert _ _ _ Hi). lia.
  - intros j m Hj. destruct (decide (i = j)) as [->|Hne].
    + rewrite list_lookup_insert_eq in Hj by (by eapply lookup_lt_Some).
      by injection Hj as <-.
    + rewrite list_lookup_insert_ne in Hj by done. by apply Hp.
Qed.

Lemma stored_Quiet v w (i : nat) message :
  Quiet v w -> Quiet v (stored i message w).
Proof.
  intros [Hd Hcond Hsig Hsent Hunr Hcalls]. split; simpl; try done.
  - by rewrite signals_app, Hsig.
  - by rewrite sent_app, Hsent.
  - by rewrite unregistered_app, Hunr.
  - by rewrite calls_app, Hcalls.
Qed.

(** A message whose slot is free is stored and counted. *)
Lemma HandleMessage_stores message w (i : nat) :
  find_child rpc (peer message) (length (children rpc)) = Z.of_nat i ->
  received_ (this w) !! i = Some None ->
  HandleMessage rpc message w = CheckStatus_ rpc (stored i message w).
Proof.
  intros Hf Hi. unfold HandleMessage, n_children. rewrite Nat2Z.id, Hf.
  unfold bind at 1. unfold get_this at 1.
  destruct (Z.ltb_spec (Z.of_nat i) 0) as [?|_]; [lia|].
  unfold bind at 1. unfold ret at 1. rewrite Nat2Z.id, Hi. done.
Qed.

(** Every [HandleMessage] that returns preserves the invariant. *)
Lemma HandleMessage_Inv ch (r : TReductor TData) v message w w' :
  Inv rpc ch r v w -> HandleMessage rpc message w = Returns tt w' ->
  Inv rpc ch r v w'.
Proof.
  intros HI Hrun.
  apply HandleMessage_Returns in Hrun as (i & Hf & Hci & Hi & Hrun).
  destruct (Inv_free_slot ch r v w i HI Hi) as [_ HQ].
  destruct (CheckStatus_Inv ch r v (stored i message w))
    as (w2 & Hrun2 & HI2 & _).
  - apply stored_Slots; [apply HI|done..].
  - by apply stored_Quiet.
  - congruence.
Qed.

Lemma reachable_Inv ch (r : TReductor TData) v w :
  reachable rpc ch r v w -> Inv rpc ch r v w.
Proof.
  induction 1 as [w Hrun|w message w' _ IH Hrun].
  - destruct (Init_Inv ch r v) as (w0 & Hrun0 & HI). congruence.
  - by eapply HandleMessage_Inv.
Qed.

Lemma deleted_app {U} (tr1 tr2 : list (Event U)) :
  deleted (tr1 ++ tr2) = deleted tr1 ++ deleted tr2.
Proof. apply omap_app. Qed.

Lemma reduce_events_deleted (r : TReductor TData) ms : forall acc,
  deleted (reduce_events r ms acc) = ms.
Proof.
  induction ms as [|m ms IH]; intros acc; [done|].
  cbn [reduce_events]. rewrite deleted_app, IH. done.
Qed.

Lemma finalize_events_deleted (st : Members TData) :
  deleted (finalize_events rpc st) = [].
Proof. unfold finalize_events. by destruct (is_root rpc). Qed.

(** What a call of [CheckStatus_] that returns has done. *)
Lemma CheckStatus_Returns ch (r : TReductor TData) w w' :
  Slots rpc ch r w ->
  CheckStatus_ rpc w = Returns tt w' ->
  (n_received_ (this w) <> n_children rpc /\ w' = w) \/
  (n_received_ (this w) = n_children rpc /\
   exists ms, received_ (this w) = Some <$> ms /\ w' = finalized rpc ms w).
Proof.
  intros [_ _ Hl Hc _] Hrun.
  destruct (Z.eq_dec (n_received_ (this w)) (n_children rpc)) as [Heq|Hne].
  - right. split; [done|].
    destruct (filled_all (received_ (this w))) as [ms Hms].
    { unfold n_children in Heq. lia. }
    exists ms. split; [done|].
    rewrite (CheckStatus_complete w ms Heq Hms) in Hrun; [congruence|].
    by rewrite Hms, length_fmap in Hl.
  - left. split; [done|]. rewrite (CheckStatus_waiting w Hne) in Hrun.
    congruence.
Qed.

(** The transaction deletes nothing before the finalisation, and in the
    finalisation the messages of all slots. *)
Lemma reachable_deleted ch (r : TReductor TData) v w :
  reachable rpc ch r v w ->
  if n_received_ (this w) =? n_children rpc
  then forall ms, received_ (this w) = Some <$> ms -> deleted (trace w) = ms
  else deleted (trace w) = [].
Proof.
  assert (Hstep : forall w0 w1,
    Slots rpc ch r w0 -> deleted (trace w0) = [] ->
    CheckStatus_ rpc w0 = Returns tt w1 ->
    if n_received_ (this w1) =? n_children rpc
    then forall ms, received_ (this w1) = Some <$> ms ->
                    deleted (trace w1) = ms
    else deleted (trace w1) = []).
  { intros w0 w1 HS Hdel Hrun.
    destruct (CheckStatus_Returns ch r w0 w1 HS Hrun)
      as [[Hne ->]|(Heq & ms & Hms & ->)].
    - apply Z.eqb_neq in Hne. by rewrite Hne.
    - simpl. rewrite (proj2 (Z.eqb_eq _ _) Heq). intros ms' Hms'.
      rewrite Hms in Hms'. apply (inj (fmap Some)) in Hms' as <-.
      rewrite !deleted_app, Hdel, reduce_events_deleted,
        finalize_events_deleted. by rewrite app_nil_r. }
  induction 1 as [w Hrun|w message w' Hreach IH Hrun].
  - rewrite Init_unfold in Hrun.
    apply (Hstep _ _ (initial_Slots ch r v) eq_refl Hrun).
  - apply reachable_Inv in Hreach as HI.
    apply HandleMessage_Returns in Hrun as (i & Hf & _ & Hslot & Hrun).
    destruct (Inv_free_slot ch r v w i HI Hslot) as [Hlt _].
    apply (Hstep (stored i message w)); [|simpl|done].
    + apply stored_Slots; [apply HI|done..].
    + destruct (Z.eqb_spec (n_received_ (this w)) (n_children rpc)); [lia|].
      by rewrite deleted_app, IH.
Qed.

Lemma reachable_waiting_deleted ch (r : TReductor TData) v w :
  reachable rpc ch r v w -> cond_ (this w) = false ->
  deleted (trace w) = [].
Proof.
  intros Hreach Hcond. assert (Hdel := reachable_deleted ch r v w Hreach).
  apply reachable_Inv in Hreach as [_ HF].
  destruct (n_received_ (this w) =? n_children rpc); [|done].
  rewrite (final_cond _ _ _ _ HF) in Hcond. done.
Qed.

Lemma reachable_final_deleted ch (r : TReductor TData) v w (i : nat) old :
  reachable rpc ch r v w -> cond_ (this w) = true ->
  received_ (this w) !! i = Some (Some old) ->
  old ∈ deleted (trace w).
Proof.
  intros Hreach Hcond Hslot.
  assert (Hdel := reachable_deleted ch r v w Hreach).
  apply reachable_Inv in Hreach as [_ HF].
  destruct (n_received_ (this w) =? n_children rpc).
  - destruct HF as [(ms & Hms & _) _ _ _ _].
    rewrite (Hdel ms Hms). rewrite Hms in Hslot.
    rewrite list_lookup_fmap in Hslot.
    destruct (ms !! i) as [m|] eqn:Hm; [|done].
    injection Hslot as ->. by eapply list_elem_of_lookup_2.
  - rewrite (quiet_cond _ _ HF) in Hcond. done.
Qed.

Lemma write_data_exact `{!FreezableLaws TData} (ch p : Z) (x : TData) :
  write_data (PointerFreeze x) (CreateMessage ch p (PointerFrozenSize x)) =
  mkMessage ch p (PointerFreeze x).
Proof.
  unfold write_data, CreateMessage. simpl.
  rewrite frozen_size_length, Nat2Z.id.
  rewrite drop_ge by (by rewrite length_replicate).
  by rewrite app_nil_r.
Qed.

Lemma find_child_lookup (p : Z) (i : nat) :
  find_child rpc p (length (children rpc)) = Z.of_nat i ->
  (i < length (children rpc))%nat /\ children rpc !! i = Some p.
Proof.
  intros Hf.
  destruct (find_child_spec p (length (children rpc)))
    as [[Hf' _]|(j & Hf' & Hj & Hcj)]; [done|lia|].
  assert (j = i) as -> by lia. done.
Qed.

Lemma find_child_stranger (p : Z) :
  p ∉ children rpc ->
  find_child rpc p (length (children rpc)) = -1.
Proof.
  intros Hp.
  destruct (find_child_spec p (length (children rpc)))
    as [[Hf' _]|(j & _ & _ & Hcj)]; [done|done|].
  destruct Hp. by eapply list_elem_of_lookup_2.
Qed.

(** C3: on a process without children the reduction is complete when
    [Init] returns: [Doit] does not suspend, the value is the caller's
    contribution, the reductor was not called, and the root has sent
    nothing (a process below a parent has sent its contribution up). *)
Theorem reduce_without_children ch (r : TReductor TData) v :
  children rpc = [] ->
  exists w,
    ReduceChannel.Doit rpc ch r v = Returns tt w /\
    (forall arrivals, ReduceChannel.Reduce rpc ch r v arrivals = Returns tt w) /\
    data_ (this w) = v /\
    cond_ (this w) = true /\
    calls (trace w) = [] /\
    (is_root rpc = true -> sent (trace w) = []) /\
    (is_root rpc = false ->
       sent (trace w) =
       [write_data (PointerFreeze v)
          (CreateMessage ch (parent rpc) (PointerFrozenSize v))]).
Proof.
  destruct rpc as [kids root up]. simpl. intros ->.
  unfold ReduceChannel.Reduce, ReduceChannel.Doit, ReduceChannel.Init, Init,
    CheckStatus_.
  destruct root; eexists; (split; [reflexivity|]); repeat split; try done.
Qed.

(** On a process without children [ReduceChannel::Init] registers the
    channel after the finalisation inside [ReduceTransaction::Init] has
    unregistered it. *)
Lemma Doit_without_children_trace ch (r : TReductor TData) v :
  children rpc = [] ->
  exists w before,
    ReduceChannel.Doit rpc ch r v = Returns tt w /\
    trace w = before ++ [EvUnregister ch; EvDone; EvCondDone; EvRegister ch].
Proof.
  destruct rpc as [kids root up]. simpl. intros ->.
  unfold ReduceChannel.Doit, ReduceChannel.Init, Init, CheckStatus_.
  destruct root; eexists; eexists; (split; [reflexivity|]); simpl.
  - by instantiate (1 := [EvInit ch]).
  - by instantiate
      (1 := [EvInit ch; EvCreateMessage up (PointerFrozenSize v);
             EvFreeze (PointerFreeze v);
             EvSend (write_data (PointerFreeze v)
                       (CreateMessage ch up (PointerFrozenSize v)))]).
Qed.

(** C4: in every state the transaction reaches, a message from a peer that
    is not among the children ends in [FATAL] with the diagnostic for it;
    and as long as the transaction has not finalised, so does a message
    from a peer whose earlier message fills a slot.  In both cases the
    members and the trace are those from before the call. *)
Theorem reduce_violation_aborts ch (r : TReductor TData) v w message :
  reachable rpc ch r v w ->
  (peer message ∉ children rpc ->
     HandleMessage rpc message w =
     Aborts (UnexpectedPeer (peer message) ch) w) /\
  (cond_ (this w) = false ->
   forall (i : nat) old,
     received_ (this w) !! i = Some (Some old) ->
     peer old = peer message ->
     HandleMessage rpc message w =
     Aborts (MultipleMessages (peer message) ch old message) w).
Proof.
  intros Hreach. assert (Hdel := reachable_waiting_deleted ch r v w Hreach).
  apply reachable_Inv in Hreach as [[Hch _ _ _ Hp] _].
  split.
  - intros Hstranger. unfold HandleMessage, n_children.
    rewrite Nat2Z.id, (find_child_stranger _ Hstranger).
    unfold bind, get_this, FATAL. simpl. by rewrite Hch.
  - intros Hcond i old Hi Hpeer. unfold HandleMessage, n_children.
    rewrite Nat2Z.id, <- Hpeer, (Hp i old Hi).
    unfold bind at 1. unfold get_this at 1.
    destruct (Z.ltb_spec (Z.of_nat i) 0) as [?|_]; [lia|].
    unfold bind at 1. unfold ret at 1. rewrite Nat2Z.id, Hi.
    unfold bind, get_trace, FATAL. rewrite (Hdel Hcond).
    rewrite bool_decide_eq_false_2 by apply not_elem_of_nil.
    by rewrite Hch.
Qed.

(** C10: in every state the transaction reaches by [Init] and the calls of
    [HandleMessage] that return, [n_received_] is the number of non-NULL
    entries of [received_], every non-NULL entry [i] holds a message sent
    by [child(i)], and the finalisation has run exactly when [n_received_]
    is the number of children. *)
Theorem reduce_counter_invariant ch (r : TReductor TData) v w :
  reachable rpc ch r v w ->
  n_received_ (this w) = Z.of_nat (filled (received_ (this w))) /\
  (forall (i : nat) m,
     received_ (this w) !! i = Some (Some m) ->
     0 <= Z.of_nat i < n_children rpc /\
     peer m = child rpc (Z.of_nat i)) /\
  (signals (trace w) = 1%nat <-> n_received_ (this w) = n_children rpc) /\
  (signals (trace w) = 0%nat <-> n_received_ (this w) <> n_children rpc) /\
  cond_ (this w) = (n_received_ (this w) =? n_children rpc).
Proof.
  intros Hreach. apply reachable_Inv in Hreach as [[Hch Hr Hl Hc Hp] HF].
  split; [done|]. split.
  - intros i m Hi. apply Hp, find_child_lookup in Hi as [Hlt Hci].
    unfold n_children, child. rewrite Nat2Z.id, Hci. simpl. lia.
  - destruct (Z.eqb_spec (n_received_ (this w)) (n_children rpc)) as [Heq|Hne].
    + destruct HF as [_ Hcond Hsig _ _]. rewrite Hsig, Hcond.
      repeat split; try done.
    + destruct HF as [_ Hcond Hsig _ _ _]. rewrite Hsig, Hcond.
      repeat split; try done.
Qed.
End ReduceTransactionProperties.

Lemma waiting_for_2_reachable :
  ReduceSpec.reachable root_of_two 7 append_reductor [Byte.x72] waiting_for_2.
Proof.
  apply (ReduceSpec.reachable_HandleMessage root_of_two 7 append_reductor
           [Byte.x72]
           (ReduceSpec.initial root_of_two 7 append_reductor [Byte.x72])
           (mkMessage 7 1 [Byte.x61])).
  - apply ReduceSpec.reachable_Init. reflexivity.
  - reflexivity.
Qed.

(** C3 at a root without children. *)
Lemma reduce_without_children_witness :
  exists w,
    ReduceChannel.Doit single_root 7 append_reductor [Byte.x72] =
      Returns tt w /\
    (forall arrivals,
       ReduceChannel.Reduce single_root 7 append_reductor [Byte.x72] arrivals =
       Returns tt w) /\
    ReduceTransaction.data_ (this w) = [Byte.x72] /\
    ReduceTransaction.cond_ (this w) = true /\
    calls (trace w) = [] /\
    (is_root single_root = true -> sent (trace w) = []) /\
    (is_root single_root = false ->
       sent (trace w) =
       [write_data (PointerFreeze [Byte.x72])
          (CreateMessage 7 (parent single_root)
             (PointerFrozenSize [Byte.x72]))]).
Proof.
  exact (reduce_without_children single_root 7 append_reductor [Byte.x72]
           eq_refl).
Defined.

(** C4 at the root of two children that holds the message of process 1: a
    message of process 9 and a second message of process 1. *)
Lemma reduce_violation_aborts_witness :
  ReduceTransaction.HandleMessage root_of_two (mkMessage 7 9 []) waiting_for_2 =
    Aborts (UnexpectedPeer 9 7) waiting_for_2 /\
  ReduceTransaction.HandleMessage root_of_two (mkMessage 7 1 [Byte.x62])
      waiting_for_2 =
    Aborts (MultipleMessages 1 7 (mkMessage 7 1 [Byte.x61])
                             (mkMessage 7 1 [Byte.x62]))
           waiting_for_2.
Proof.
  split.
  - apply (proj1 (reduce_violation_aborts root_of_two 7 append_reductor
                    [Byte.x72] waiting_for_2 (mkMessage 7 9 [])
                    waiting_for_2_reachable)).
    simpl. rewrite !elem_of_cons, elem_of_nil. lia.
  - apply (proj2 (reduce_violation_aborts root_of_two 7 append_reductor
                    [Byte.x72] waiting_for_2 (mkMessage 7 1 [Byte.x62])
                    waiting_for_2_reachable) eq_refl 0%nat
                 (mkMessage 7 1 [Byte.x61]));
      reflexivity.
Defined.

(** C10 at the root of two children that holds the message of process 1. *)
Lemma reduce_counter_invariant_witness :
  ReduceTransaction.n_received_ (this waiting_for_2) =
    Z.of_nat (ReduceSpec.filled (ReduceTransaction.received_ (this waiting_for_2))) /\
  (forall (i : nat) m,
     ReduceTransaction.received_ (this waiting_for_2) !! i = Some (Some m) ->
     0 <= Z.of_nat i < n_children root_of_two /\
     peer m = child root_of_two (Z.of_nat i)) /\
  (signals (trace waiting_for_2) = 1%nat <->
   ReduceTransaction.n_received_ (this waiting_for_2) = n_children root_of_two) /\
  (signals (trace waiting_for_2) = 0%nat <->
   ReduceTransaction.n_received_ (this waiting_for_2) <> n_children root_of_two) /\
  ReduceTransaction.cond_ (this waiting_for_2) =
    (ReduceTransaction.n_received_ (this waiting_for_2) =? n_children root_of_two).
Proof.
  exact (reduce_counter_invariant root_of_two 7 append_reductor [Byte.x72]
           waiting_for_2 waiting_for_2_reachable).
Defined.

(** ** A whole reduction on one process, for every order of arrival *)

Section ReduceRun.
Import ReduceTransaction ReduceSpec.
Context {TData : Type} `{Freezable TData}.
Variable rpc : Topology.
Hypothesis distinct_children : NoDup (children rpc).

Implicit Types (w : W TData) (m message : Message) (ms : list Message).

Lemma find_child_index (i : nat) (p : Z) :
  children rpc !! i = Some p ->
  find_child rpc p (length (children rpc)) = Z.of_nat i.
Proof.
  intros Hi.
  destruct (find_child_spec rpc p (length (children rpc)))
    as [[_ Hnone]|(j & Hf & _ & Hj)]; [done| |].
  - destruct (Hnone i); [by eapply lookup_lt_Some|done].
  - by rewrite Hf, (NoDup_lookup _ _ _ _ distinct_children Hi Hj).
Qed.

Lemma slots_of_nil :
  slots_of rpc [] = replicate (length (children rpc)) None.
Proof.
  clear distinct_children. unfold slots_of.
  induction (children rpc) as [|c cs IH]; [done|].
  by rewrite fmap_cons, IH.
Qed.

Lemma slots_of_insert (i : nat) m (delivered : list Message) :
  children rpc !! i = Some (peer m) ->
  <[i := Some m]> (slots_of rpc delivered) = slots_of rpc (m :: delivered).
Proof.
  intros Hi. apply list_eq. intros j. destruct (decide (i = j)) as [<-|Hne].
  - rewrite list_lookup_insert_eq.
    + unfold slots_of. rewrite list_lookup_fmap, Hi. simpl.
      by rewrite bool_decide_eq_true_2.
    + unfold slots_of. rewrite length_fmap. by eapply lookup_lt_Some.
  - rewrite list_lookup_insert_ne by done.
    unfold slots_of. rewrite !list_lookup_fmap.
    destruct (children rpc !! j) as [c|] eqn:Hj; [|done]. simpl.
    rewrite bool_decide_eq_false_2; [done|].
    intros Hc. apply Hne.
    eapply NoDup_lookup; [exact distinct_children|exact Hi|by rewrite Hc].
Qed.

Lemma find_free (p : Z) (delivered : list Message) :
  p ∉ peer <$> delivered ->
  List.find (fun m => bool_decide (peer m = p)) delivered = None.
Proof.
  induction delivered as [|m' delivered IH]; [done|].
  rewrite fmap_cons, not_elem_of_cons. intros [Hne Hnot]. simpl.
  rewrite bool_decide_eq_false_2 by congruence. by apply IH.
Qed.

Lemma find_owner m (delivered : list Message) :
  NoDup (peer <$> delivered) -> m ∈ delivered ->
  List.find (fun m' => bool_decide (peer m' = peer m)) delivered = Some m.
Proof.
  induction delivered as [|m' delivered IH]; intros Hnd Hin.
  - by apply elem_of_nil in Hin.
  - rewrite fmap_cons in Hnd. apply NoDup_cons in Hnd as [Hfresh Hnd].
    simpl. apply elem_of_cons in Hin as [->|Hin].
    + by rewrite bool_decide_eq_true_2.
    + rewrite bool_decide_eq_false_2; [by apply IH|].
      intros Hsame. apply Hfresh. rewrite Hsame.
      by apply list_elem_of_fmap_2.
Qed.

(** Once a message of every child was delivered, in whatever order, the
    slots hold them by child index. *)
Lemma slots_of_complete ms (delivered : list Message) :
  peer <$> ms = children rpc -> delivered ≡ₚ ms ->
  slots_of rpc delivered = Some <$> ms.
Proof.
  intros Hpeers Hperm. unfold slots_of.
  rewrite <- Hpeers, <- list_fmap_compose.
  apply list_fmap_ext. intros i m Hm. simpl. apply find_owner.
  - rewrite Hperm, Hpeers. exact distinct_children.
  - rewrite Hperm. by eapply list_elem_of_lookup_2.
Qed.

(** Delivering messages of distinct children whose slots are free goes
    through, whatever their order. *)
Lemma deliver_run ch (r : TReductor TData) v (remaining : list Message) :
  forall (delivered : list Message) w,
  NoDup (peer <$> (remaining ++ delivered)) ->
  (forall m, m ∈ remaining -> peer m ∈ children rpc) ->
  Inv rpc ch r v w -> received_ (this w) = slots_of rpc delivered ->
  exists w', ReduceChannel.deliver rpc remaining w = Returns tt w' /\
             Inv rpc ch r v w' /\
             received_ (this w') = slots_of rpc (rev remaining ++ delivered).
Proof.
  induction remaining as [|m rest IH]; intros delivered w Hnd Hknown HI Hslots.
  - exists w. split; [done|]. split; [done|]. by simpl.
  - destruct (list_elem_of_lookup_1 (children rpc) (peer m)) as [i Hi].
    { apply Hknown, elem_of_cons. by left. }
    assert (Hf := find_child_index i (peer m) Hi).
    simpl in Hnd. apply NoDup_cons in Hnd as [Hfresh Hnd].
    assert (Hfree : received_ (this w) !! i = Some None).
    { rewrite Hslots. unfold slots_of. rewrite list_lookup_fmap, Hi. simpl.
      rewrite find_free; [done|]. intros Hin. apply Hfresh.
      rewrite fmap_app, elem_of_app. by right. }
    destruct (Inv_free_slot rpc ch r v w i HI Hfree) as [_ HQ].
    destruct (CheckStatus_Inv rpc ch r v (stored i m w))
      as (w2 & Hrun2 & HI2 & _ & Hrecv2).
    { apply stored_Slots; [apply HI|done..]. }
    { by apply stored_Quiet. }
    destruct (IH (m :: delivered) w2) as (w' & Hrun' & HI' & Hrecv').
    + rewrite fmap_app, fmap_cons.
      apply NoDup_app. rewrite fmap_app in Hnd, Hfresh.
      apply NoDup_app in Hnd as (Hnd1 & Hdisj & Hnd2).
      split; [done|]. split.
      * intros p Hp. rewrite not_elem_of_cons. split; [|by apply Hdisj].
        intros ->. apply Hfresh, elem_of_app. by left.
      * apply NoDup_cons. split; [|done].
        intros Hin. apply Hfresh, elem_of_app. by right.
    + intros m' Hm'. apply Hknown, elem_of_cons. by right.
    + done.
    + rewrite Hrecv2. simpl. rewrite Hslots. by apply slots_of_insert.
    + exists w'. split; [|split; [done|]].
      * simpl. unfold bind at 1. unfold ReduceChannel.GetTransaction.
        by rewrite (HandleMessage_stores rpc m w i Hf Hfree), Hrun2.
      * rewrite Hrecv'. simpl. by rewrite <- app_assoc.
Qed.

Lemma Inv_Register ch (r : TReductor TData) v w :
  Inv rpc ch r v w ->
  Inv rpc ch r v (mkWorld (this w) (trace w ++ [EvRegister ch])).
Proof.
  intros [HS HF]. split; [by destruct HS|]. simpl.
  destruct (n_received_ (this w) =? n_children rpc).
  - destruct HF as [Hd Hcond Hsig Hsent Hunr]. split; simpl; try done.
    + by rewrite signals_app, Hsig.
    + by rewrite sent_app, Hsent, app_nil_r.
    + by rewrite unregistered_app, Hunr.
  - destruct HF as [Hd Hcond Hsig Hsent Hunr Hcalls]. split; simpl; try done.
    + by rewrite signals_app, Hsig.
    + by rewrite sent_app, Hsent.
    + by rewrite unregistered_app, Hunr.
    + by rewrite calls_app, Hcalls.
Qed.

(** With one message of every child, in whatever order they arrive,
    [rpc::Reduce] returns with the contribution and the children's values
    reduced by child index; what it has sent is its one message upward. *)
Lemma Reduce_run ch (r : TReductor TData) v ms (arrival : list Message) :
  peer <$> ms = children rpc -> arrival ≡ₚ ms ->
  exists w, ReduceChannel.Reduce rpc ch r v arrival = Returns tt w /\
            data_ (this w) = reduced r ms v /\
            channel_ (this w) = ch /\
            sent (trace w) =
              if is_root rpc then [] else [upward_message rpc (this w)].
Proof.
  intros Hpeers Hperm.
  destruct (CheckStatus_Inv rpc ch r v (initial rpc ch r v))
    as (w0 & Hrun0 & HI0 & _ & Hrecv0);
    [apply initial_Slots|apply initial_Quiet|].
  apply (Inv_Register ch r v) in HI0.
  set (w1 := mkWorld (this w0) (trace w0 ++ [EvRegister ch])) in *.
  assert (Hrecv1 : received_ (this w1) = slots_of rpc []).
  { rewrite slots_of_nil. simpl. rewrite Hrecv0. simpl.
    unfold n_children. by rewrite Nat2Z.id. }
  assert (Hfinish : forall w, Inv rpc ch r v w ->
            received_ (this w) = Some <$> ms ->
            Wait w = Returns tt w /\
            data_ (this w) = reduced r ms v /\
            channel_ (this w) = ch /\
            sent (trace w) =
              if is_root rpc then [] else [upward_message rpc (this w)]).
  { intros w [[Hch _ _ Hc _] HF] Hrecv.
    assert (Hn : n_received_ (this w) = n_children rpc).
    { rewrite Hc, Hrecv, filled_Some. unfold n_children.
      by rewrite <- Hpeers, length_fmap. }
    rewrite (proj2 (Z.eqb_eq _ _) Hn) in HF.
    destruct HF as [(ms' & Hms' & Hd) Hcond Hsig Hsent Hunr].
    rewrite Hrecv in Hms'. apply (inj (fmap Some)) in Hms' as <-.
    unfold Wait. by rewrite Hcond. }
  unfold ReduceChannel.Reduce, ReduceChannel.Doit, ReduceChannel.Init.
  rewrite Init_unfold, Hrun0. unfold emit at 1. fold w1.
  unfold ReduceChannel.Wait.
  destruct (decide (children rpc = [])) as [Hkids|Hkids].
  - rewrite Hkids in Hpeers. apply fmap_nil_inv in Hpeers as ->.
    apply Permutation_nil_r in Hperm as ->.
    destruct (Hfinish w1 HI0) as (Hwait & Hrest).
    { rewrite Hrecv1. unfold slots_of. by rewrite Hkids. }
    exists w1. by rewrite Hwait.
  - assert (Hblocks : Wait w1 = Blocks w1).
    { destruct HI0 as [[_ _ _ Hc _] HF].
      assert (Hn : n_received_ (this w1) <> n_children rpc).
      { rewrite Hc, Hrecv1, slots_of_nil, filled_replicate_None.
        unfold n_children. destruct (children rpc); [done|]. simpl. lia. }
      apply Z.eqb_neq in Hn. rewrite Hn in HF.
      unfold Wait. by rewrite (quiet_cond _ _ HF). }
    rewrite Hblocks.
    destruct (deliver_run ch r v arrival [] w1)
      as (w' & Hrun' & HI' & Hrecv'); try done.
    + rewrite app_nil_r, Hperm, Hpeers. exact distinct_children.
    + intros m Hm. rewrite <- Hpeers.
      apply list_elem_of_fmap_2. by rewrite <- Hperm.
    + rewrite app_nil_r in Hrecv'.
      rewrite (slots_of_complete ms (rev arrival)) in Hrecv'.
      2:{ done. }
      2:{ by rewrite <- Hperm, <- Permutation_rev. }
      destruct (Hfinish w' HI' Hrecv') as (Hwait & Hrest).
      exists w'. unfold bind. by rewrite Hrun', Hwait.
Qed.
End ReduceRun.

(** ** The reduction over the tree *)

Section TreeProperties.
Import ReduceTransaction ReduceSpec Tree.
Context {TData : Type} {F : Freezable TData} {L : FreezableLaws TData}.

Lemma Tree_ind' (P : Tree TData -> Prop) :
  (forall me v kids, Forall P kids -> P (Node me v kids)) ->
  forall t, P t.
Proof.
  intros Hnode. fix IH 1. intros [me v kids]. apply Hnode.
  induction kids as [|k kids IHkids]; constructor; [apply IH|exact IHkids].
Qed.

(** Every process returns with the value of its subtree, and what it has
    sent is that value, to its parent. *)
Lemma reduce_tree_result arrival ch (r : TReductor TData) :
  (forall me inbox, arrival me inbox ≡ₚ inbox) ->
  forall t, distinct_siblings t -> forall up,
  exists w, reduce_tree arrival ch r up t = Returns tt w /\
            data_ (this w) = subtree_result r t /\
            sent (trace w) =
              match up with
              | None => []
              | Some p => [mkMessage ch p (PointerFreeze (subtree_result r t))]
              end.
Proof.
  intros Harrival t. induction t as [me v kids IH] using Tree_ind'.
  intros Hwf up. inversion Hwf as [me' v' kids' Hnd Hkids]; subst.
  assert (Hinbox :
    flat_map (fun k => arriving (rank k) me
                         (reduce_tree arrival ch r (Some me) k)) kids =
    subtree_message ch r <$> kids).
  { clear Hnd Hwf. induction kids as [|k kids IHkids]; [done|].
    apply Forall_cons in IH as [IHk IH].
    apply Forall_cons in Hkids as [Hk Hkids].
    simpl. rewrite (IHkids IH Hkids).
    destruct (IHk Hk (Some me)) as (wk & -> & _ & Hsent).
    unfold arriving. rewrite Hsent.
    rewrite filter_cons_True by done. by rewrite filter_nil. }
  cbn [reduce_tree]. rewrite Hinbox.
  destruct (Reduce_run (topology up (Node me v kids)) Hnd ch r v
              (subtree_message ch r <$> kids)
              (arrival me (subtree_message ch r <$> kids)))
    as (w & Hrun & Hdata & Hch & Hsent).
  { simpl. rewrite <- list_fmap_compose. by apply list_fmap_ext. }
  { apply Harrival. }
  exists w. split; [done|].
  assert (Hvalue : data_ (this w) = subtree_result r (Node me v kids)).
  { rewrite Hdata. unfold reduced. simpl. clear -L.
    revert v. induction kids as [|k kids IHkids]; intros v; [done|].
    simpl. by rewrite thaw_freeze, IHkids. }
  split; [done|].
  rewrite Hsent. unfold upward_message. rewrite write_data_exact, Hch, Hvalue.
  by destruct up.
Qed.

Section Traversal.
Variable op : TData -> TData -> TData.
Hypothesis op_assoc : forall a b c, op (op a b) c = op a (op b c).

Lemma fold_left_op_assoc (l : list TData) : forall a x,
  op a (fold_left op l x) = fold_left op l (op a x).
Proof.
  induction l as [|y l IH]; intros a x; [done|].
  simpl. by rewrite IH, op_assoc.
Qed.

Lemma fold_left_snoc_foldr (l : list TData) : forall x v,
  fold_left op (l ++ [v]) x = op x (foldr op v l).
Proof.
  induction l as [|y l IH]; intros x v; [done|].
  simpl. by rewrite IH, op_assoc.
Qed.

Lemma combined_snoc (l : list TData) v :
  combined op (l ++ [v]) = Some (foldr op v l).
Proof.
  destruct l as [|x l]; [done|]. simpl. by rewrite fold_left_snoc_foldr.
Qed.
End Traversal.

(** With [acc := acc (+) incoming] the value of a subtree is its
    contributions combined parent first, then the children by index. *)
Lemma subtree_result_preorder (op : TData -> TData -> TData) :
  (forall a b c, op (op a b) c = op a (op b c)) ->
  forall t,
  subtree_result (fun incoming acc => op acc incoming) t =
  fold_left op (flat_map preorder (subtrees t)) (value t).
Proof.
  intros Hassoc t. induction t as [me v kids IH] using Tree_ind'.
  simpl. revert v. induction kids as [|k kids IHkids]; intros v; [done|].
  apply Forall_cons in IH as [IHk IH].
  simpl. rewrite (IHkids IH), IHk, fold_left_app.
  destruct k as [kme kv kkids]. simpl.
  by rewrite fold_left_op_assoc.
Qed.

(** C1 (as amended): every process of the tree, the root and every other
    one, returns from the reduction, in whatever order the messages of its
    children reach it, with the contributions of its subtree combined in
    one fixed order.  With a reductor that computes [acc (+) incoming] this
    is the order parent first, then the subtrees of the children by
    increasing index; with one that computes [incoming (+) acc] it is the
    reverse of that order. *)
Theorem reduce_tree_traversal arrival ch (op : TData -> TData -> TData) up t :
  (forall a b c, op (op a b) c = op a (op b c)) ->
  (forall me inbox, arrival me inbox ≡ₚ inbox) ->
  distinct_siblings t ->
  (exists w,
     reduce_tree arrival ch (fun incoming acc => op acc incoming) up t =
     Returns tt w /\
     Some (data_ (this w)) = combined op (preorder t)) /\
  (exists w,
     reduce_tree arrival ch (fun incoming acc => op incoming acc) up t =
     Returns tt w /\
     Some (data_ (this w)) = combined op (rev (preorder t))).
Proof.
  intros Hassoc Harrival Hwf. split.
  - destruct (reduce_tree_result arrival ch
                (fun incoming acc => op acc incoming) Harrival t Hwf up)
      as (w & Hrun & Hdata & _).
    exists w. split; [done|].
    rewrite Hdata, (subtree_result_preorder op Hassoc).
    by destruct t.
  - destruct (reduce_tree_result arrival ch
                (fun incoming acc => op incoming acc) Harrival t Hwf up)
      as (w & Hrun & Hdata & _).
    exists w. split; [done|].
    rewrite Hdata.
    rewrite (subtree_result_preorder (fun a b => op b a)) by (by intros).
    destruct t as [me v kids]. simpl.
    rewrite (combined_snoc op Hassoc).
    by rewrite fold_left_rev_right.
Qed.
End TreeProperties.

Lemma rev_arrival_Permutation (me : Z) (inbox : list Message) :
  rev inbox ≡ₚ inbox.
Proof. symmetry. apply Permutation_rev. Qed.

Lemma three_strings_distinct : Tree.distinct_siblings three_strings.
Proof.
  constructor.
  - simpl. apply (bool_decide_unpack _). by compute.
  - repeat constructor.
Qed.

(** The amended C1 at three processes whose messages arrive last child
    first. *)
Lemma reduce_tree_traversal_witness :
  (exists w,
     Tree.reduce_tree (fun _ inbox => rev inbox) 7 append_reductor None
       three_strings = Returns tt w /\
     Some (ReduceTransaction.data_ (this w)) =
     Tree.combined (@app Byte.byte) (Tree.preorder three_strings)) /\
  (exists w,
     Tree.reduce_tree (fun _ inbox => rev inbox) 7 prepend_reductor None
       three_strings = Returns tt w /\
     Some (ReduceTransaction.data_ (this w)) =
     Tree.combined (@app Byte.byte) (rev (Tree.preorder three_strings))).
Proof.
  apply (reduce_tree_traversal (fun _ inbox => rev inbox) 7 (@app Byte.byte)
           None three_strings).
  - intros a b c. symmetry. apply app_assoc.
  - apply rev_arrival_Permutation.
  - apply three_strings_distinct.
Defined.

(** C1 as stated fails: on the strings r (root), a and b (its children) the
    root ends with rab when the reductor appends the incoming value and with
    bar when it prepends it; children first, by increasing index, then the
    parent, would be abr. *)
Lemma reduce_tree_not_postorder :
  value_after (Tree.reduce_tree (fun _ inbox => inbox) 7 append_reductor None
                 three_strings) = Some [Byte.x72; Byte.x61; Byte.x62] /\
  value_after (Tree.reduce_tree (fun _ inbox => inbox) 7 prepend_reductor None
                 three_strings) = Some [Byte.x62; Byte.x61; Byte.x72] /\
  Tree.combined (@app Byte.byte) (Tree.postorder three_strings) =
    Some [Byte.x61; Byte.x62; Byte.x72] /\
  value_after (Tree.reduce_tree (fun _ inbox => inbox) 7 append_reductor None
                 three_strings) <>
    Tree.combined (@app Byte.byte) (Tree.postorder three_strings) /\
  value_after (Tree.reduce_tree (fun _ inbox => inbox) 7 prepend_reductor None
                 three_strings) <>
    Tree.combined (@app Byte.byte) (Tree.postorder three_strings).
Proof. repeat split; done. Qed.

(** C2: in the scenario of three processes the root ends with 11, whether
    the message of A or that of B arrives first: the reductor is called on
    (3, 10) and then on (4, -7). *)
Theorem three_process_scenario (ch : Z) :
  value_after (Tree.reduce_tree (fun _ inbox => inbox) ch subtract_reductor
                 None three_processes) = Some 11 /\
  value_after (Tree.reduce_tree (fun _ inbox => rev inbox) ch
                 subtract_reductor None three_processes) = Some 11 /\
  calls_after (Tree.reduce_tree (fun _ inbox => inbox) ch subtract_reductor
                 None three_processes) = [(3, 10); (4, -7)] /\
  calls_after (Tree.reduce_tree (fun _ inbox => rev inbox) ch
                 subtract_reductor None three_processes) = [(3, 10); (4, -7)].
Proof. repeat split; vm_compute; reflexivity. Qed.

(** ** The service dispatcher *)

Section DispatcherProperties.
Import RemoteObjectBackend.
Context {RequestObject ResponseObject : Type}.
Context {FQ : Freezable RequestObject} {FR : Freezable ResponseObject}.

Implicit Types (backend : Backend RequestObject ResponseObject).

(** What [HandleMessage] does with a request whose handler returns. *)
Lemma HandleMessage_replies {LR : FreezableLaws ResponseObject}
    backend (real_response response : ResponseObject) (request : Message) :
  HandleRequest backend (PointerThaw (data request)) real_response =
    Filled response ->
  HandleMessage real_response request (GetTransaction backend request) =
  Returns tt
    (mkWorld (mkMembers (channel request) backend)
       [EvInit (channel request);
        EvThaw request; EvConstruct; EvCall (PointerThaw (data request));
        EvCreateMessage (peer request) (PointerFrozenSize response);
        EvDelete request;
        EvFreeze (PointerFreeze response);
        EvSend (mkMessage (channel request) (peer request)
                          (PointerFreeze response));
        EvDone; EvDeleteThis]).
Proof.
  intros Hhandled. unfold HandleMessage, GetTransaction, Init.
  unfold bind, get_this, emit. simpl. rewrite Hhandled. simpl.
  by rewrite write_data_exact.
Qed.

(** C7 (as amended): for a request whose handler returns, the dispatcher
    thaws the request, constructs the response, calls the handler, creates
    the reply of the frozen size for the sender of the request, deletes the
    request, freezes the response into the reply, sends this one reply,
    marks the transaction done and deletes it, in this order. *)
Theorem dispatch_steps {LR : FreezableLaws ResponseObject}
    backend (real_response response : ResponseObject) (request : Message) :
  HandleRequest backend (PointerThaw (data request)) real_response =
    Filled response ->
  let reply :=
    mkMessage (channel request) (peer request) (PointerFreeze response) in
  exists w,
    HandleMessage real_response request (GetTransaction backend request) =
      Returns tt w /\
    trace w =
      [EvInit (channel request);
       EvThaw request; EvConstruct; EvCall (PointerThaw (data request));
       EvCreateMessage (peer request) (PointerFrozenSize response);
       EvDelete request;
       EvFreeze (PointerFreeze response); EvSend reply;
       EvDone; EvDeleteThis] /\
    data_size reply = PointerFrozenSize response /\
    sent (trace w) = [reply] /\
    steps (trace w) =
      [Thaws; Constructs; Invokes; Allocates; Frees; Serialises; Sends;
       Destroys].
Proof.
  intros Hhandled reply.
  rewrite (HandleMessage_replies backend real_response response request
             Hhandled).
  eexists. split; [reflexivity|]. simpl. fold reply.
  repeat split. unfold data_size. simpl. by rewrite frozen_size_length.
Qed.

(** C8: the handler of a backend that does not override it ends in
    [FATAL] and fills in no response; a request that reaches such a backend
    aborts the process before a reply is created or sent. *)
Theorem default_handler_aborts :
  (forall (request : RequestObject) (response : ResponseObject),
     HandleRequest RemoteObjectBackend request response =
     HandlerFatal VirtualitySucks) /\
  (forall (real_response : ResponseObject) (request : Message),
     exists w,
       HandleMessage real_response request
         (GetTransaction (@RemoteObjectBackend RequestObject ResponseObject)
                         request) =
       Aborts VirtualitySucks w /\
       sent (trace w) = [] /\
       trace w = [EvInit (channel request); EvThaw request; EvConstruct;
                  EvCall (PointerThaw (data request))]).
Proof.
  split; [done|]. intros real_response request.
  unfold HandleMessage, GetTransaction, Init, bind, get_this, emit, FATAL.
  simpl. eexists. split; [reflexivity|]. by split.
Qed.
End DispatcherProperties.

(** The amended C7 at the data getter. *)
Lemma dispatch_steps_witness :
  exists w,
    RemoteObjectBackend.HandleMessage [] get_request
      (RemoteObjectBackend.GetTransaction getter get_request) =
      Returns tt w /\
    trace w =
      [EvInit 9; EvThaw get_request; EvConstruct;
       EvCall (mkDataGetterRequest GET_DATA);
       EvCreateMessage 3 1; EvDelete get_request;
       EvFreeze [Byte.x05]; EvSend (mkMessage 9 3 [Byte.x05]);
       EvDone; EvDeleteThis] /\
    data_size (mkMessage 9 3 [Byte.x05]) = 1 /\
    sent (trace w) = [mkMessage 9 3 [Byte.x05]] /\
    steps (trace w) =
      [Thaws; Constructs; Invokes; Allocates; Frees; Serialises; Sends;
       Destroys].
Proof.
  exact (dispatch_steps getter [] [Byte.x05] get_request eq_refl).
Defined.

(** C7 as stated fails: the request is deleted after the handler has
    returned and the reply was created, not right after it was thawed. *)
Lemma dispatch_not_claimed_steps :
  exists w,
    RemoteObjectBackend.HandleMessage [] get_request
      (RemoteObjectBackend.GetTransaction getter get_request) =
      Returns tt w /\
    steps (trace w) <> claimed_steps /\
    steps (trace w) =
      [Thaws; Constructs; Invokes; Allocates; Frees; Serialises; Sends;
       Destroys].
Proof.
  vm_compute. eexists. split; [reflexivity|]. split; [discriminate|reflexivity].
Qed.

(** ** The client call *)

Section ClientProperties.
Import RpcRequestTransaction.
Context {RequestObject ResponseObject : Type}.
Context {FQ : Freezable RequestObject} {FR : Freezable ResponseObject}.

Implicit Types (w : W) (ticks : list Tick).

Lemma HandleMessage_records (message : Message) w :
  HandleMessage message w =
  Returns tt (mkWorld (set_response (Some message) (this w))
                      (trace w ++ [EvDone; EvLock; EvSignal; EvUnlock])).
Proof.
  unfold HandleMessage, bind, emit, set_this. simpl.
  by rewrite <- !app_assoc.
Qed.

Lemma Doit_wait_Wake ticks (locked : bool) w :
  Doit_wait (Wake :: ticks) locked w =
  let w1 := if locked then w else mkWorld (this w) (trace w ++ [EvLock]) in
  match response (this w) with
  | None => Doit_wait ticks true w1
  | Some r => Returns r (mkWorld (this w1) (trace w1 ++ [EvUnlock]))
  end.
Proof.
  destruct locked; simpl; unfold bind, ret, emit, get_this; simpl;
    by destruct (response (this w)).
Qed.

Lemma Doit_wait_Deliver ticks (locked : bool) m w :
  Doit_wait (Deliver m :: ticks) locked w =
  Doit_wait ticks locked
    (mkWorld (set_response (Some m) (this w))
             (trace w ++ [EvDone; EvLock; EvSignal; EvUnlock])).
Proof. simpl. unfold bind. by rewrite HandleMessage_records. Qed.

(** A call that returns, returns a message that was recorded before. *)
Lemma Doit_wait_returns ticks : forall locked w r w',
  Doit_wait ticks locked w = Returns r w' ->
  Deliver r ∈ ticks \/ response (this w) = Some r.
Proof.
  induction ticks as [|[m|] ticks IH]; intros locked w r w' Hrun.
  - done.
  - rewrite Doit_wait_Deliver in Hrun.
    apply IH in Hrun as [Hin|Hresp].
    + left. by apply elem_of_cons; right.
    + left. simpl in Hresp. injection Hresp as ->. by apply elem_of_cons; left.
  - rewrite Doit_wait_Wake in Hrun. simpl in Hrun.
    destruct (response (this w)) as [r0|] eqn:Hresp.
    + injection Hrun as -> _. by right.
    + apply IH in Hrun as [Hin|Hr].
      * left. by apply elem_of_cons; right.
      * destruct locked; simpl in Hr; congruence.
Qed.

(** Without a delivery the calling thread stays suspended. *)
Lemma Doit_wait_blocks ticks : forall locked w,
  (forall m, Deliver m ∉ ticks) -> response (this w) = None ->
  exists w', Doit_wait ticks locked w = Blocks w'.
Proof.
  induction ticks as [|[m|] ticks IH]; intros locked w Hnone Hresp.
  - by exists w.
  - destruct (Hnone m). by apply elem_of_cons; left.
  - rewrite Doit_wait_Wake, Hresp. simpl. apply IH.
    + intros m Hm. apply (Hnone m). by apply elem_of_cons; right.
    + by destruct locked.
Qed.

Lemma Doit_wait_spurious (k : nat) ticks : forall (locked : bool) w,
  response (this w) = None ->
  exists (locked' : bool) w',
    response (this w') = None /\
    Doit_wait (replicate k Wake ++ ticks) locked w =
    Doit_wait ticks locked' w'.
Proof.
  induction k as [|k IH]; intros locked w Hresp.
  - by exists locked, w.
  - change (replicate (S k) Wake ++ ticks)
      with (Wake :: (replicate k Wake ++ ticks)).
    rewrite Doit_wait_Wake, Hresp. simpl. apply IH.
    by destruct locked.
Qed.

Lemma Doit_wait_latest (ms : list Message) m ticks : forall (locked : bool) w,
  exists w',
    Doit_wait ((Deliver <$> ms) ++ Deliver m :: Wake :: ticks) locked w =
    Returns m w'.
Proof.
  induction ms as [|m' ms IH]; intros locked w.
  - simpl ((_ <$> []) ++ _).
    rewrite Doit_wait_Deliver, Doit_wait_Wake. simpl. by eexists.
  - rewrite fmap_cons. simpl ((_ :: _) ++ _).
    rewrite Doit_wait_Deliver. apply IH.
Qed.

(** The calling thread only locks and unlocks, and a delivery only calls
    [Done], [Lock], [Signal] and [Unlock]: waiting sends and deletes
    nothing. *)
Lemma Doit_wait_quiet ticks : forall (locked : bool) w r w',
  Doit_wait ticks locked w = Returns r w' ->
  sent (trace w') = sent (trace w) /\ deleted (trace w') = deleted (trace w).
Proof.
  induction ticks as [|[m|] ticks IH]; intros locked w r w' Hrun.
  - done.
  - rewrite Doit_wait_Deliver in Hrun. apply IH in Hrun as [-> ->].
    simpl. unfold sent, deleted. rewrite !omap_app. simpl.
    by rewrite !app_nil_r.
  - rewrite Doit_wait_Wake in Hrun. simpl in Hrun.
    destruct (response (this w)) as [r0|].
    + injection Hrun as _ <-. simpl. unfold sent, deleted.
      destruct locked; simpl; rewrite !omap_app; simpl;
        by rewrite !app_nil_r.
    + apply IH in Hrun as [-> ->].
      destruct locked; [done|]. simpl. unfold sent, deleted.
      rewrite !omap_app. simpl. by rewrite !app_nil_r.
Qed.

(** Whatever the calling thread did before, it returns at its first
    wake-up after a delivery, with the message delivered last. *)
Lemma Doit_wait_resumes (early : nat) (ms : list Message) m ticks
    (locked : bool) w :
  response (this w) = None ->
  exists w',
    Doit_wait (replicate early Wake ++ (Deliver <$> ms) ++
               Deliver m :: Wake :: ticks) locked w = Returns m w'.
Proof.
  intros Hnone.
  destruct (Doit_wait_spurious early
              ((Deliver <$> ms) ++ Deliver m :: Wake :: ticks) locked w Hnone)
    as (locked' & w1 & _ & ->).
  apply Doit_wait_latest.
Qed.

Lemma Doit_send_sends {LQ : FreezableLaws RequestObject}
    (channel peer : Z) (request : RequestObject) w :
  Doit_send channel peer request w =
  Returns tt
    (mkWorld (mkMembers channel None)
       (trace w ++
        [EvInit channel;
         EvCreateMessage peer (PointerFrozenSize request);
         EvFreeze (PointerFreeze request);
         EvSend (mkMessage channel peer (PointerFreeze request))])).
Proof.
  unfold Doit_send, Doit_prepare, bind, emit, set_this, ret. simpl.
  by rewrite write_data_exact, <- !app_assoc.
Qed.

(** C9: a message delivered to a transaction that holds a response already
    is recorded in its place: [HandleMessage] returns, it does not end in
    [FATAL], and the call that has not yet woken up returns the later
    message. *)
Theorem response_overwritten (ch : Z) (old message : Message)
    (tr : list (Event unit)) :
  HandleMessage message (mkWorld (mkMembers ch (Some old)) tr) =
    Returns tt (mkWorld (mkMembers ch (Some message))
                        (tr ++ [EvDone; EvLock; EvSignal; EvUnlock])) /\
  (forall ticks locked w, exists w',
     Doit_wait (Deliver old :: Deliver message :: Wake :: ticks) locked w =
     Returns message w').
Proof.
  split; [apply HandleMessage_records|].
  intros ticks locked w.
  rewrite !Doit_wait_Deliver, Doit_wait_Wake. simpl. by eexists.
Qed.

Lemma Doit_fresh {LQ : FreezableLaws RequestObject}
    (channel peer : Z) (request : RequestObject) ticks (st : Members) :
  Doit channel peer request ticks (mkWorld st []) =
  Doit_wait ticks false
    (mkWorld (mkMembers channel None)
       [EvInit channel;
        EvCreateMessage peer (PointerFrozenSize request);
        EvFreeze (PointerFreeze request);
        EvSend (mkMessage channel peer (PointerFreeze request))]).
Proof. unfold Doit, bind. by rewrite Doit_send_sends. Qed.

(** C6: the client call creates a message of the frozen size of the
    request, freezes the request into it and records that there is no
    response yet; nothing is sent before that, and the message is sent
    next.  The calling thread then stays suspended as long as no message is
    delivered to the transaction, however often it wakes up; it returns at
    its first wake-up after a delivery, and what it returns is a message
    that was delivered, thawed.  Against a backend whose handler fills in
    [response] for this request, the call returns [response], however
    often the calling thread wakes up before the reply is delivered. *)
Theorem client_call {LQ : FreezableLaws RequestObject}
    {LR : FreezableLaws ResponseObject}
    (client server channel : Z)
    (backend : RemoteObjectBackend.Backend RequestObject ResponseObject)
    (real_response response : ResponseObject) (request : RequestObject)
    (st : Members) :
  RemoteObjectBackend.HandleRequest backend request real_response =
    RemoteObjectBackend.Filled response ->
  let message := mkMessage channel server (PointerFreeze request) in
  let prepared :=
    mkWorld (mkMembers channel None)
      [EvInit channel;
       EvCreateMessage server (PointerFrozenSize request);
       EvFreeze (PointerFreeze request)] in
  (Doit_prepare channel server request (mkWorld st []) =
     Returns message prepared /\
   sent (trace prepared) = [] /\
   Doit_send channel server request (mkWorld st []) =
     Returns tt
       (mkWorld (this prepared) (trace prepared ++ [EvSend message])) /\
   data_size message = PointerFrozenSize request) /\
  (forall ticks, (forall m, Deliver m ∉ ticks) ->
     exists w,
       Rpc.Request (ResponseObject := ResponseObject)
         channel server request ticks (mkWorld st []) = Blocks w) /\
  (forall (early : nat) (ms : list Message) m ticks, exists w,
     Rpc.Request (ResponseObject := ResponseObject)
       channel server request
       (replicate early Wake ++ (Deliver <$> ms) ++ Deliver m :: Wake :: ticks)
       (mkWorld st []) =
     Returns (Rpc.mkMembers m (PointerThaw (data m))) w) /\
  (forall ticks (members : Rpc.Members ResponseObject) w,
     Rpc.Request channel server request ticks (mkWorld st []) =
       Returns members w ->
     Deliver (Rpc.response_ members) ∈ ticks /\
     Rpc.response_object_ members =
       PointerThaw (data (Rpc.response_ members))) /\
  (forall (early : nat) (rest : list Tick), exists w,
     Call.call client server backend real_response channel request st
       early rest =
     Returns (Rpc.mkMembers
                (mkMessage channel server (PointerFreeze response)) response)
             w).
Proof.
  intros Hhandled message prepared.
  assert (Hsent : Doit_send channel server request (mkWorld st []) =
            Returns tt
              (mkWorld (this prepared) (trace prepared ++ [EvSend message]))).
  { by rewrite Doit_send_sends. }
  split; [|split; [|split; [|split]]].
  - split; [|split; [done|split; [done|]]].
    + unfold Doit_prepare, bind, emit, set_this, ret. simpl.
      by rewrite write_data_exact.
    + unfold data_size. simpl. by rewrite frozen_size_length.
  - intros ticks Hnone. subst message. unfold Rpc.Request.
    unfold bind at 1. rewrite Doit_fresh.
    destruct (Doit_wait_blocks ticks false
                (mkWorld (mkMembers channel None)
                   [EvInit channel;
                    EvCreateMessage server (PointerFrozenSize request);
                    EvFreeze (PointerFreeze request);
                    EvSend (mkMessage channel server
                                      (PointerFreeze request))]))
      as [w Hw]; [done..|].
    exists w. by rewrite Hw.
  - intros early ms m ticks. unfold Rpc.Request.
    unfold bind at 1. rewrite Doit_fresh.
    destruct (Doit_wait_resumes early ms m ticks false
                (mkWorld (mkMembers channel None)
                   [EvInit channel;
                    EvCreateMessage server (PointerFrozenSize request);
                    EvFreeze (PointerFreeze request);
                    EvSend (mkMessage channel server
                                      (PointerFreeze request))]))
      as [w Hw]; [done|].
    rewrite Hw. unfold bind, emit, ret. simpl. by eexists.
  - intros ticks members w. unfold Rpc.Request.
    unfold bind at 1. rewrite Doit_fresh.
    destruct (Doit_wait ticks false _) as [r w1| | |] eqn:Hwait; try done.
    apply Doit_wait_returns in Hwait as [Hin|Hresp]; [|done].
    unfold bind, emit, ret. simpl. intros Hret. injection Hret as <- _.
    by split.
  - intros early rest. unfold Call.call. rewrite Doit_send_sends.
    unfold arriving at 2.
    simpl. rewrite filter_cons_True by done. rewrite filter_nil. simpl.
    rewrite (HandleMessage_replies backend real_response response).
    2:{ simpl. by rewrite thaw_freeze. }
    unfold arriving. simpl. rewrite filter_cons_True by done.
    rewrite filter_nil. simpl.
    unfold Rpc.Request.
    unfold bind at 1. rewrite Doit_fresh.
    destruct (Doit_wait_resumes early []
                (mkMessage channel server (PointerFreeze response)) rest false
                (mkWorld (mkMembers channel None)
                   [EvInit channel;
                    EvCreateMessage server (PointerFrozenSize request);
                    EvFreeze (PointerFreeze request);
                    EvSend (mkMessage channel server
                                      (PointerFreeze request))]))
      as [w Hw]; [done|].
    change (received_from server _)
      with (mkMessage channel server (PointerFreeze response)).
    change ((Deliver <$> []) ++ ?l) with l in Hw. rewrite Hw.
    unfold bind, emit, ret. simpl. rewrite thaw_freeze. by eexists.
Qed.
End ClientProperties.

(** C6 at the data getter: process 3 fetches the byte that process 5
    holds, and its thread wakes up twice before the reply is delivered. *)
Lemma client_call_witness :
  exists w,
    Call.call 3 5 getter [] 9 (mkDataGetterRequest GET_DATA)
      (RpcRequestTransaction.mkMembers 0 None) 2 [Wake] =
    Returns (Rpc.mkMembers (mkMessage 9 5 [Byte.x05]) [Byte.x05]) w.
Proof.
  exact (proj2 (proj2 (proj2 (proj2
    (client_call 3 5 9 getter [] [Byte.x05] (mkDataGetterRequest GET_DATA)
       (RpcRequestTransaction.mkMembers 0 None) eq_refl)))) 2%nat [Wake]).
Defined.

(** ** More on the reduction transaction *)

Section ReduceTransactionMore.
Import ReduceTransaction ReduceSpec.
Context {TData : Type} `{Freezable TData}.
Variable rpc : Topology.

Implicit Types (w : W TData) (m message : Message) (ms : list Message).

Lemma find_child_above (p : Z) (k : nat) :
  (k <= length (children rpc))%nat ->
  forall i : nat, find_child rpc p k = Z.of_nat i ->
  forall j : nat, (i < j < k)%nat -> children rpc !! j <> Some p.
Proof.
  induction k as [|k IH]; intros Hk i Hf j Hj; [lia|].
  simpl in Hf. unfold child in Hf. rewrite Nat2Z.id in Hf.
  destruct (lookup_lt_is_Some_2 (children rpc) k) as [c Hc]; [lia|].
  rewrite Hc in Hf. simpl in Hf.
  destruct (Z.eqb_spec p c) as [->|Hne].
  - assert (i = k) by lia. lia.
  - destruct (decide (j = k)) as [->|Hjk]; [congruence|].
    apply (IH ltac:(lia) i Hf). lia.
Qed.

(** X1: the search loop of [HandleMessage] ends with [-1] exactly when the
    sender is none of the children, and otherwise with the highest index
    whose child is the sender. *)
Theorem find_child_search (p : Z) :
  let found := find_child rpc p (length (children rpc)) in
  -1 <= found < n_children rpc /\
  (found = -1 <-> p ∉ children rpc) /\
  (forall i : nat,
     found = Z.of_nat i <->
     children rpc !! i = Some p /\
     forall j : nat, (i < j)%nat -> children rpc !! j <> Some p).
Proof.
  intros found. subst found.
  destruct (find_child_spec rpc p (length (children rpc)))
    as [[Hf Hnone]|(i & Hf & Hi & Hci)]; [done| |]; rewrite Hf.
  - split; [unfold n_children; lia|]. split.
    + split; [|done]. intros _ Hin.
      apply list_elem_of_lookup_1 in Hin as [i Hi].
      apply (Hnone i); [by eapply lookup_lt_Some|done].
    + intros i. split; [lia|]. intros [Hi _].
      destruct (Hnone i); [by eapply lookup_lt_Some|done].
  - assert (Habove := find_child_above p (length (children rpc))
                        ltac:(lia) i Hf).
    split; [unfold n_children; lia|]. split.
    + split; [lia|]. intros Hnot. destruct Hnot.
      by eapply list_elem_of_lookup_2.
    + intros i'. split.
      * intros Heq. assert (i' = i) as -> by lia. split; [done|].
        intros j Hj. destruct (decide (j < length (children rpc))%nat).
        -- apply Habove. lia.
        -- rewrite lookup_ge_None_2 by lia. done.
      * intros [Hi' Htop]. f_equal.
        destruct (Nat.lt_trichotomy i i') as [Hlt|[->|Hgt]]; [|done|].
        -- destruct (Habove i'); [|done]. split; [done|].
           by eapply lookup_lt_Some.
        -- by destruct (Htop i).
Qed.

(** X2: a message of a child that has no message in the slots yet is
    accepted: it is stored in the slot the search selects, the other slots
    are left alone, the counter grows by one and [Done(peer)] is called for
    the sender. *)
Theorem HandleMessage_accepts ch (r : TReductor TData) v w message :
  reachable rpc ch r v w ->
  peer message ∈ children rpc ->
  (forall (i : nat) old,
     received_ (this w) !! i = Some (Some old) -> peer old <> peer message) ->
  exists (i : nat) w',
    HandleMessage rpc message w = Returns tt w' /\
    find_child rpc (peer message) (length (children rpc)) = Z.of_nat i /\
    received_ (this w') = <[i := Some message]> (received_ (this w)) /\
    received_ (this w) !! i = Some None /\
    n_received_ (this w') = n_received_ (this w) + 1 /\
    done_peers (trace w') = done_peers (trace w) ++ [peer message].
Proof.
  intros Hreach Hin Hfresh. apply reachable_Inv in Hreach as HI.
  destruct (find_child_spec rpc (peer message) (length (children rpc)))
    as [[_ Hnone]|(i & Hf & Hi & Hci)]; [done| |].
  { apply list_elem_of_lookup_1 in Hin as [i Hi].
    destruct (Hnone i); [by eapply lookup_lt_Some|done]. }
  assert (Hslot : received_ (this w) !! i = Some None).
  { destruct (lookup_lt_is_Some_2 (received_ (this w)) i) as [[old|] Hslot];
      [destruct HI as [[_ _ Hl _ _] _]; lia| |done].
    destruct HI as [[_ _ _ _ Hp] _].
    destruct (find_child_lookup rpc (peer old) i (Hp i old Hslot))
      as [_ Hold].
    destruct (Hfresh i old Hslot). congruence. }
  destruct (Inv_free_slot rpc ch r v w i HI Hslot) as [Hlt HQ].
  exists i.
  destruct (Z.eq_dec (n_received_ (this w) + 1) (n_children rpc)) as [Heq|Hne].
  - destruct (filled_all (<[i := Some message]> (received_ (this w))))
      as [ms Hms].
    { rewrite (filled_insert _ _ _ Hslot), length_insert.
      destruct HI as [[_ _ Hl Hc _] _]. unfold n_children in Heq. lia. }
    exists (finalized rpc ms (stored i message w)). split.
    + rewrite (HandleMessage_stores rpc message w i Hf Hslot).
      apply CheckStatus_complete; [done|done|].
      destruct HI as [[_ _ Hl _ _] _].
      apply (f_equal length) in Hms.
      rewrite length_insert, length_fmap in Hms. lia.
    + repeat split; try done. simpl.
      unfold done_peers. rewrite !omap_app. simpl.
      assert (Hq : forall acc, omap (fun e : Event (TData * TData) =>
                     match e with EvDonePeer p => Some p | _ => None end)
                     (reduce_events (reductor_ (this w)) ms acc) = []).
      { clear. induction ms as [|m ms IH]; intros acc; [done|].
        simpl. apply IH. }
      rewrite Hq. unfold finalize_events.
      destruct (is_root rpc); simpl; by rewrite app_nil_r.
  - exists (stored i message w). split.
    + rewrite (HandleMessage_stores rpc message w i Hf Hslot).
      by apply CheckStatus_waiting.
    + repeat split; try done. simpl.
      unfold done_peers. by rewrite omap_app.
Qed.

(** X3: once the finalisation has run, no further message is accepted, so
    the finalisation cannot run a second time.  A message of a process that
    is not among the children ends in [FATAL] and leaves the members, the
    accumulator among them, and the trace as they are.  A message of a
    child finds its slot not NULL, and the arguments of the second [FATAL]
    dereference the message of that slot, which the finalisation has
    deleted: the behaviour is undefined. *)
Theorem finalized_rejects ch (r : TReductor TData) v w message :
  reachable rpc ch r v w ->
  signals (trace w) = 1%nat ->
  (peer message ∉ children rpc ->
     HandleMessage rpc message w =
     Aborts (UnexpectedPeer (peer message) ch) w) /\
  (peer message ∈ children rpc ->
     HandleMessage rpc message w = Undefined) /\
  (forall w', HandleMessage rpc message w <> Returns tt w').
Proof.
  intros Hreach Hsig. apply reachable_Inv in Hreach as HI.
  assert (Hcond : cond_ (this w) = true).
  { destruct HI as [_ HF].
    destruct (n_received_ (this w) =? n_children rpc).
    - by destruct HF.
    - destruct HF as [_ _ Hq _ _ _]. rewrite Hq in Hsig. done. }
  split; [|split].
  - intros Hstranger. destruct HI as [[Hch _ _ _ _] _].
    unfold HandleMessage, n_children.
    rewrite Nat2Z.id, (find_child_stranger rpc _ Hstranger).
    unfold bind, get_this, FATAL. simpl. by rewrite Hch.
  - intros Hchild.
    destruct (find_child_spec rpc (peer message) (length (children rpc)))
      as [[_ Hnone]|(i & Hf & Hi & Hci)]; [done| |].
    { apply list_elem_of_lookup_1 in Hchild as [j Hj].
      destruct (Hnone j); [by eapply lookup_lt_Some|done]. }
    destruct (lookup_lt_is_Some_2 (received_ (this w)) i) as [slot Hslot].
    { destruct HI as [[_ _ Hl _ _] _]. lia. }
    destruct slot as [old|].
    + unfold HandleMessage, n_children. rewrite Nat2Z.id, Hf.
      unfold bind at 1. unfold get_this at 1.
      destruct (Z.ltb_spec (Z.of_nat i) 0) as [?|_]; [lia|].
      unfold bind at 1. unfold ret at 1. rewrite Nat2Z.id, Hslot.
      unfold bind, get_trace, undefined.
      rewrite bool_decide_eq_true_2; [done|].
      by apply (reachable_final_deleted rpc ch r v w i).
    + destruct (Inv_free_slot rpc ch r v w i HI Hslot) as [_ HQ].
      rewrite (quiet_cond _ _ HQ) in Hcond. done.
  - intros w' Hrun.
    apply HandleMessage_Returns in Hrun as (i & _ & _ & Hslot & _).
    destruct (Inv_free_slot rpc ch r v w i HI Hslot) as [_ HQ].
    rewrite (quiet_signals _ _ HQ) in Hsig. done.
Qed.

(** X4: when the topology names the same process twice among the children,
    the slot of the lower index is never filled, so the finalisation never
    runs and [Wait] stays suspended, whatever is delivered. *)
Theorem repeated_child_never_finalizes ch (r : TReductor TData) v w :
  ~ NoDup (children rpc) ->
  reachable rpc ch r v w ->
  signals (trace w) = 0%nat /\ Wait w = Blocks w /\ sent (trace w) = [].
Proof.
  intros Hdup Hreach. apply reachable_Inv in Hreach as HI.
  assert (Hpair : exists (i j : nat) p, (i < j)%nat /\
            children rpc !! i = Some p /\ children rpc !! j = Some p).
  { clear -Hdup. induction (children rpc) as [|c cs IH].
    - destruct Hdup. constructor.
    - destruct (decide (c ∈ cs)) as [Hin|Hnot].
      + apply list_elem_of_lookup_1 in Hin as [j Hj].
        exists 0%nat, (S j), c. split; [lia|]. by split.
      + destruct IH as (i & j & p & Hlt & Hi & Hj).
        { intros Hnd. apply Hdup. by constructor. }
        exists (S i), (S j), p. split; [lia|]. by split. }
  destruct Hpair as (i & j & p & Hlt & Hi & Hj).
  assert (Hslot : received_ (this w) !! i = Some None).
  { destruct (lookup_lt_is_Some_2 (received_ (this w)) i) as [[old|] Hslot];
      [|exfalso|done].
    { destruct HI as [[_ _ Hl _ _] _]. rewrite Hl.
      by eapply lookup_lt_Some. }
    destruct HI as [[_ _ _ _ Hp] _]. assert (Hf := Hp i old Hslot).
    destruct (find_child_lookup rpc (peer old) i Hf) as [_ Hold].
    assert (p = peer old) as -> by congruence.
    apply (find_child_above (peer old) (length (children rpc))
             ltac:(lia) i Hf j); [|done].
    split; [done|]. by eapply lookup_lt_Some. }
  destruct (Inv_free_slot rpc ch r v w i HI Hslot)
    as [_ [_ Hcond Hsig Hsent _ _]].
  split; [done|]. split; [|done]. unfold Wait. by rewrite Hcond.
Qed.

(** X12: in no state the transaction reaches before the finalisation does
    a delivery read a slot out of range or dereference NULL or a deleted
    message, and a delivery never suspends: it returns or it ends in one of
    the two [FATAL] calls of [HandleMessage]. *)
Theorem HandleMessage_never_undefined ch (r : TReductor TData) v w message :
  reachable rpc ch r v w ->
  cond_ (this w) = false ->
  HandleMessage rpc message w <> Undefined /\
  (forall w', HandleMessage rpc message w <> Blocks w') /\
  (forall d w', HandleMessage rpc message w = Aborts d w' ->
     d = UnexpectedPeer (peer message) ch \/
     exists old, d = MultipleMessages (peer message) ch old message).
Proof.
  intros Hreach Hcond.
  assert (Hdel := reachable_waiting_deleted rpc ch r v w Hreach Hcond).
  apply reachable_Inv in Hreach as HI.
  pose proof HI as [[Hch _ Hl _ _] _].
  destruct (find_child_spec rpc (peer message) (length (children rpc)))
    as [[Hf _]|(i & Hf & Hi & Hci)]; [done| |].
  - assert (Hrun : HandleMessage rpc message w =
                   Aborts (UnexpectedPeer (peer message) ch) w).
    { unfold HandleMessage, n_children. rewrite Nat2Z.id, Hf.
      unfold bind, get_this, FATAL. simpl. by rewrite Hch. }
    rewrite Hrun. split; [done|]. split; [done|].
    intros d w' Heq. injection Heq as <- _. by left.
  - destruct (lookup_lt_is_Some_2 (received_ (this w)) i) as [slot Hslot];
      [lia|].
    destruct slot as [old|].
    + assert (Hrun : HandleMessage rpc message w =
                     Aborts (MultipleMessages (peer message) ch old message) w).
      { unfold HandleMessage, n_children. rewrite Nat2Z.id, Hf.
        unfold bind at 1. unfold get_this at 1.
        destruct (Z.ltb_spec (Z.of_nat i) 0) as [?|_]; [lia|].
        unfold bind at 1. unfold ret at 1. rewrite Nat2Z.id, Hslot.
        unfold bind, get_trace, FATAL. rewrite Hdel.
        rewrite bool_decide_eq_false_2 by apply not_elem_of_nil.
        by rewrite Hch. }
      rewrite Hrun. split; [done|]. split; [done|].
      intros d w' Heq. injection Heq as <- _. right. by exists old.
    + rewrite (HandleMessage_stores rpc message w i Hf Hslot).
      destruct (Inv_free_slot rpc ch r v w i HI Hslot) as [_ HQ].
      destruct (CheckStatus_Inv rpc ch r v (stored i message w))
        as (w1 & Hrun & _).
      * apply stored_Slots; [apply HI|done..].
      * by apply stored_Quiet.
      * rewrite Hrun. by repeat split.
Qed.
End ReduceTransactionMore.

(** X12 at the root of two children that holds the message of process 1. *)
Lemma HandleMessage_never_undefined_witness :
  ReduceTransaction.HandleMessage root_of_two (mkMessage 7 2 [Byte.x62])
    waiting_for_2 <> Undefined /\
  (forall w',
     ReduceTransaction.HandleMessage root_of_two (mkMessage 7 2 [Byte.x62])
       waiting_for_2 <> Blocks w') /\
  (forall d w',
     ReduceTransaction.HandleMessage root_of_two (mkMessage 7 2 [Byte.x62])
       waiting_for_2 = Aborts d w' ->
     d = UnexpectedPeer 2 7 \/
     exists old, d = MultipleMessages 2 7 old (mkMessage 7 2 [Byte.x62])).
Proof.
  exact (HandleMessage_never_undefined root_of_two 7 append_reductor
           [Byte.x72] waiting_for_2 (mkMessage 7 2 [Byte.x62])
           waiting_for_2_reachable eq_refl).
Defined.

Lemma twins_after_one_reachable :
  ReduceSpec.reachable twins 7 append_reductor [Byte.x72] twins_after_one.
Proof.
  apply (ReduceSpec.reachable_HandleMessage twins 7 append_reductor
           [Byte.x72]
           (ReduceSpec.initial twins 7 append_reductor [Byte.x72])
           (mkMessage 7 1 [Byte.x61])).
  - apply ReduceSpec.reachable_Init. reflexivity.
  - reflexivity.
Qed.

(** X2 at the root of two children that holds the message of process 1,
    for a message of process 2. *)
Lemma HandleMessage_accepts_witness :
  exists (i : nat) w',
    ReduceTransaction.HandleMessage root_of_two (mkMessage 7 2 [Byte.x62])
      waiting_for_2 = Returns tt w' /\
    ReduceTransaction.find_child root_of_two 2 2 = Z.of_nat i /\
    ReduceTransaction.received_ (this w') =
      <[i := Some (mkMessage 7 2 [Byte.x62])]>
        (ReduceTransaction.received_ (this waiting_for_2)) /\
    ReduceTransaction.received_ (this waiting_for_2) !! i = Some None /\
    ReduceTransaction.n_received_ (this w') =
      ReduceTransaction.n_received_ (this waiting_for_2) + 1 /\
    done_peers (trace w') = done_peers (trace waiting_for_2) ++ [2].
Proof.
  apply (HandleMessage_accepts root_of_two 7 append_reductor [Byte.x72]
           waiting_for_2 (mkMessage 7 2 [Byte.x62]) waiting_for_2_reachable).
  - simpl. rewrite !elem_of_cons. lia.
  - intros [|[|i]] old Hslot; simpl in Hslot; try discriminate.
    injection Hslot as <-. simpl. lia.
Defined.

Lemma both_reported_reachable :
  ReduceSpec.reachable root_of_two 7 append_reductor [Byte.x72] both_reported.
Proof.
  apply (ReduceSpec.reachable_HandleMessage root_of_two 7 append_reductor
           [Byte.x72] waiting_for_2 (mkMessage 7 2 [Byte.x62])).
  - exact waiting_for_2_reachable.
  - reflexivity.
Qed.

(** X3 at the root of two children after both have reported: a message of
    process 9, and a further message of process 1. *)
Lemma finalized_rejects_witness :
  ReduceTransaction.HandleMessage root_of_two (mkMessage 7 9 []) both_reported =
    Aborts (UnexpectedPeer 9 7) both_reported /\
  ReduceTransaction.HandleMessage root_of_two (mkMessage 7 1 [Byte.x63])
    both_reported = Undefined /\
  (forall w',
     ReduceTransaction.HandleMessage root_of_two (mkMessage 7 1 [Byte.x63])
       both_reported <> Returns tt w').
Proof.
  split; [|split].
  - apply (proj1 (finalized_rejects root_of_two 7 append_reductor [Byte.x72]
                    both_reported (mkMessage 7 9 []) both_reported_reachable
                    eq_refl)).
    simpl. rewrite !elem_of_cons, elem_of_nil. lia.
  - apply (proj1 (proj2 (finalized_rejects root_of_two 7 append_reductor
                           [Byte.x72] both_reported (mkMessage 7 1 [Byte.x63])
                           both_reported_reachable eq_refl))).
    simpl. rewrite !elem_of_cons. lia.
  - exact (proj2 (proj2 (finalized_rejects root_of_two 7 append_reductor
                           [Byte.x72] both_reported (mkMessage 7 1 [Byte.x63])
                           both_reported_reachable eq_refl))).
Defined.

(** X4 at the topology with process 1 twice, after a message of process 1. *)
Lemma repeated_child_never_finalizes_witness :
  signals (trace twins_after_one) = 0%nat /\
  ReduceTransaction.Wait twins_after_one = Blocks twins_after_one /\
  sent (trace twins_after_one) = [].
Proof.
  apply (repeated_child_never_finalizes twins 7 append_reductor [Byte.x72]
           twins_after_one).
  - simpl. intros Hnd. apply NoDup_cons in Hnd as [Hnot _].
    apply Hnot. rewrite elem_of_cons. by left.
  - exact twins_after_one_reachable.
Defined.

(** ** More on a reduction on one process *)

(** The run of [rpc::Reduce] on a process without children. *)
Lemma Reduce_childless {TData : Type} `{Freezable TData} (rpc : Topology) ch
    (r : ReduceTransaction.TReductor TData) v (arrivals : list Message) :
  children rpc = [] ->
  exists w,
    ReduceChannel.Reduce rpc ch r v arrivals = Returns tt w /\
    trace w =
      [EvInit ch] ++ ReduceSpec.finalize_events rpc (this w) ++
      [EvRegister ch] /\
    ReduceTransaction.data_ (this w) = v.
Proof.
  destruct rpc as [kids root up]. simpl. intros ->.
  unfold ReduceChannel.Reduce, ReduceChannel.Doit, ReduceChannel.Init,
    ReduceTransaction.Init, ReduceTransaction.CheckStatus_.
  destruct root; eexists; (split; [reflexivity|]); by repeat split.
Qed.

Section ReduceRunMore.
Import ReduceTransaction ReduceSpec.
Context {TData : Type} `{Freezable TData}.
Variable rpc : Topology.
Hypothesis distinct_children : NoDup (children rpc).

Implicit Types (w : W TData) (m message : Message) (ms : list Message).

Lemma deliver_app (a b : list Message) w :
  ReduceChannel.deliver rpc (a ++ b) w =
  match ReduceChannel.deliver rpc a w with
  | Returns _ w' => ReduceChannel.deliver rpc b w'
  | Aborts d w' => Aborts d w'
  | Blocks w' => Blocks w'
  | Undefined => Undefined
  end.
Proof.
  revert w. induction a as [|m a IH]; intros w; [done|].
  simpl. unfold bind.
  by destruct (HandleMessage rpc m (ReduceChannel.GetTransaction m w)).
Qed.

(** While a message is still missing, deliveries only fill slots. *)
Lemma deliver_partial ch (r : TReductor TData) v (remaining : list Message) :
  forall (delivered : list Message) w,
  NoDup (peer <$> (remaining ++ delivered)) ->
  (forall m, m ∈ remaining -> peer m ∈ children rpc) ->
  (length (remaining ++ delivered) < length (children rpc))%nat ->
  Inv rpc ch r v w -> received_ (this w) = slots_of rpc delivered ->
  n_received_ (this w) = Z.of_nat (length delivered) ->
  exists w', ReduceChannel.deliver rpc remaining w = Returns tt w' /\
             Inv rpc ch r v w' /\
             received_ (this w') = slots_of rpc (rev remaining ++ delivered) /\
             n_received_ (this w') =
               Z.of_nat (length (remaining ++ delivered)) /\
             trace w' = trace w ++ (EvDonePeer ∘ peer <$> remaining).
Proof.
  induction remaining as [|m rest IH];
    intros delivered w Hnd Hknown Hfew HI Hslots Hcount.
  - exists w. do 4 (split; [done|]). by rewrite fmap_nil, app_nil_r.
  - destruct (list_elem_of_lookup_1 (children rpc) (peer m)) as [i Hi].
    { apply Hknown, elem_of_cons. by left. }
    assert (Hf := find_child_index rpc distinct_children i (peer m) Hi).
    simpl in Hnd. apply NoDup_cons in Hnd as [Hfresh Hnd].
    assert (Hfree : received_ (this w) !! i = Some None).
    { rewrite Hslots. unfold slots_of. rewrite list_lookup_fmap, Hi. simpl.
      rewrite find_free; [done|]. intros Hin. apply Hfresh.
      rewrite fmap_app, elem_of_app. by right. }
    destruct (Inv_free_slot rpc ch r v w i HI Hfree) as [_ HQ].
    destruct (CheckStatus_Inv rpc ch r v (stored i m w))
      as (w2 & Hrun2 & HI2 & Hsame & _).
    { apply stored_Slots; [apply HI|done..]. }
    { by apply stored_Quiet. }
    assert (Hn : n_received_ (this (stored i m w)) <> n_children rpc).
    { simpl. unfold n_children. rewrite Hcount.
      simpl in Hfew. rewrite length_app in Hfew. lia. }
    specialize (Hsame Hn). subst w2.
    destruct (IH (m :: delivered) (stored i m w))
      as (w' & Hrun' & HI' & Hrecv' & Hcount' & Htrace').
    + rewrite fmap_app, fmap_cons.
      apply NoDup_app. rewrite fmap_app in Hnd, Hfresh.
      apply NoDup_app in Hnd as (Hnd1 & Hdisj & Hnd2).
      split; [done|]. split.
      * intros p Hp. rewrite not_elem_of_cons. split; [|by apply Hdisj].
        intros ->. apply Hfresh, elem_of_app. by left.
      * apply NoDup_cons. split; [|done].
        intros Hin. apply Hfresh, elem_of_app. by right.
    + intros m' Hm'. apply Hknown, elem_of_cons. by right.
    + simpl in Hfew. rewrite length_app in *. simpl. lia.
    + done.
    + simpl. rewrite Hslots. by apply slots_of_insert.
    + simpl. rewrite Hcount. lia.
    + exists w'. split; [|split; [done|split; [|split]]].
      * simpl. unfold bind at 1. unfold ReduceChannel.GetTransaction.
        by rewrite (HandleMessage_stores rpc m w i Hf Hfree), Hrun2.
      * rewrite Hrecv'. simpl. by rewrite <- app_assoc.
      * rewrite Hcount'. rewrite !length_app. simpl. lia.
      * rewrite Htrace'. simpl. by rewrite <- app_assoc.
Qed.

(** A process with children is suspended after [Init] and [Register]. *)
Lemma Doit_suspends ch (r : TReductor TData) v :
  children rpc <> [] ->
  let w1 := mkWorld (this (initial rpc ch r v)) [EvInit ch; EvRegister ch] in
  ReduceChannel.Doit rpc ch r v = Blocks w1 /\
  Inv rpc ch r v w1 /\
  received_ (this w1) = slots_of rpc [] /\
  n_received_ (this w1) = 0.
Proof.
  intros Hkids w1.
  assert (Hn : n_received_ (this (initial rpc ch r v)) <> n_children rpc).
  { simpl. unfold n_children. destruct (children rpc); [done|]. simpl. lia. }
  destruct (CheckStatus_Inv rpc ch r v (initial rpc ch r v))
    as (w0 & Hrun0 & HI0 & Hsame & _);
    [apply initial_Slots|apply initial_Quiet|].
  rewrite (Hsame Hn) in Hrun0, HI0. clear w0 Hsame.
  apply (Inv_Register rpc ch r v) in HI0. simpl in HI0. fold w1 in HI0.
  split; [|split; [done|split; [|done]]].
  - unfold ReduceChannel.Doit, ReduceChannel.Init.
    rewrite Init_unfold, Hrun0. unfold emit. simpl. fold w1.
    unfold ReduceChannel.Wait, Wait. simpl. done.
  - rewrite slots_of_nil. simpl. unfold n_children. by rewrite Nat2Z.id.
Qed.

(** The run of [rpc::Reduce] while the message of a child is missing. *)
Lemma Reduce_partial_run ch (r : TReductor TData) v
    (arrival : list Message) :
  NoDup (peer <$> arrival) ->
  (forall m, m ∈ arrival -> peer m ∈ children rpc) ->
  (length arrival < length (children rpc))%nat ->
  exists w,
    ReduceChannel.Reduce rpc ch r v arrival = Blocks w /\
    data_ (this w) = v /\
    n_received_ (this w) = Z.of_nat (length arrival) /\
    trace w = [EvInit ch; EvRegister ch] ++ (EvDonePeer ∘ peer <$> arrival).
Proof.
  intros Hnd Hknown Hfew.
  assert (Hkids : children rpc <> []).
  { intros Hnil. rewrite Hnil in Hfew. simpl in Hfew. lia. }
  destruct (Doit_suspends ch r v Hkids) as (Hdoit & HI1 & Hrecv1 & Hcount1).
  destruct (deliver_partial ch r v arrival [] _
              ltac:(by rewrite app_nil_r) Hknown
              ltac:(by rewrite app_nil_r) HI1 Hrecv1 Hcount1)
    as (w' & Hrun' & HI' & Hrecv' & Hcount' & Htrace').
  rewrite app_nil_r in Hcount'.
  exists w'. unfold ReduceChannel.Reduce. rewrite Hdoit.
  unfold bind. rewrite Hrun'.
  destruct HI' as [_ HF].
  assert (Hn : n_received_ (this w') <> n_children rpc)
    by (unfold n_children; lia).
  apply Z.eqb_neq in Hn. rewrite Hn in HF.
  destruct HF as [Hd Hcond _ _ _ _].
  unfold ReduceChannel.Wait, Wait. rewrite Hcond. by repeat split.
Qed.

(** X5: as long as the message of a child is missing, [rpc::Reduce] stays
    suspended in [Wait], in whatever order the others arrive: the caller's
    value is untouched, the reductor was not called, nothing was deleted,
    sent upward or unregistered; all that has happened is [Init],
    [Register] and one [Done(peer)] per arrival. *)
Theorem Reduce_waits_for_all ch (r : TReductor TData) v
    (arrival : list Message) :
  NoDup (peer <$> arrival) ->
  (forall m, m ∈ arrival -> peer m ∈ children rpc) ->
  (length arrival < length (children rpc))%nat ->
  exists w,
    ReduceChannel.Reduce rpc ch r v arrival = Blocks w /\
    data_ (this w) = v /\
    n_received_ (this w) = Z.of_nat (length arrival) /\
    trace w = [EvInit ch; EvRegister ch] ++ (EvDonePeer ∘ peer <$> arrival).
Proof. exact (Reduce_partial_run ch r v arrival). Qed.

Lemma deleted_reduce_events (r : TReductor TData) ms : forall acc,
  deleted (reduce_events r ms acc) = ms /\
  done_peers (reduce_events r ms acc) = [] /\
  length (calls (reduce_events r ms acc)) = length ms.
Proof.
  induction ms as [|m ms IH]; intros acc; [done|].
  destruct (IH (r (PointerThaw (data m)) acc)) as (Hd & Hp & Hc).
  simpl. unfold deleted, done_peers, calls in *. simpl.
  by rewrite Hd, Hp, Hc.
Qed.

(** The run of [rpc::Reduce] when a message of every child arrives. *)
Lemma Reduce_complete_run ch (r : TReductor TData) v ms
    (arrival : list Message) :
  children rpc <> [] ->
  peer <$> ms = children rpc -> arrival ≡ₚ ms ->
  exists w,
    ReduceChannel.Reduce rpc ch r v arrival = Returns tt w /\
    data_ (this w) = reduced r ms v /\
    trace w =
      [EvInit ch; EvRegister ch] ++ (EvDonePeer ∘ peer <$> arrival) ++
      reduce_events r ms v ++ finalize_events rpc (this w) /\
    deleted (trace w) = ms /\
    done_peers (trace w) = peer <$> arrival /\
    length (calls (trace w)) = length (children rpc).
Proof.
  intros Hkids Hpeers Hperm.
  assert (Hlen : length arrival = length (children rpc)).
  { by rewrite Hperm, <- Hpeers, length_fmap. }
  destruct (Doit_suspends ch r v Hkids) as (Hdoit & HI1 & Hrecv1 & Hcount1).
  destruct arrival as [|m0 arrival0] using rev_ind.
  { destruct (children rpc); [done|]. simpl in Hlen. lia. }
  clear IHarrival0. rename arrival0 into front, m0 into last.
  assert (Hnd : NoDup (peer <$> (front ++ [last]))).
  { rewrite Hperm, Hpeers. exact distinct_children. }
  assert (Hknown : forall m, m ∈ front ++ [last] -> peer m ∈ children rpc).
  { intros m Hm. rewrite <- Hpeers. apply list_elem_of_fmap_2.
    by rewrite <- Hperm. }
  rewrite length_app in Hlen. simpl in Hlen.
  destruct (deliver_partial ch r v front []
              (mkWorld (this (initial rpc ch r v)) [EvInit ch; EvRegister ch]))
    as (w' & Hrun' & HI' & Hrecv' & Hcount' & Htrace').
  { rewrite app_nil_r. rewrite fmap_app in Hnd.
    by apply NoDup_app in Hnd as (? & _ & _). }
  { intros m Hm. apply Hknown, elem_of_app. by left. }
  { rewrite app_nil_r. lia. }
  { exact HI1. }
  { exact Hrecv1. }
  { exact Hcount1. }
  rewrite app_nil_r in Hrecv', Hcount'.
  destruct (list_elem_of_lookup_1 (children rpc) (peer last)) as [i Hi].
  { apply Hknown, elem_of_app. right. by apply list_elem_of_singleton. }
  assert (Hf := find_child_index rpc distinct_children i (peer last) Hi).
  assert (Hfree : received_ (this w') !! i = Some None).
  { rewrite Hrecv'. unfold slots_of. rewrite list_lookup_fmap, Hi. simpl.
    rewrite find_free; [done|]. intros Hin.
    rewrite fmap_app in Hnd. apply NoDup_app in Hnd as (_ & Hdisj & _).
    apply list_elem_of_fmap in Hin as (m' & Hpm & Hm').
    rewrite <- (Permutation_rev front) in Hm'.
    apply (Hdisj (peer last)).
    - rewrite Hpm. by apply list_elem_of_fmap_2.
    - simpl. by apply list_elem_of_singleton. }
  destruct (Inv_free_slot rpc ch r v w' i HI' Hfree) as [_ HQ].
  assert (Hstored : received_ (this (stored i last w')) = Some <$> ms).
  { simpl. rewrite Hrecv'.
    rewrite (slots_of_insert rpc distinct_children i last _ Hi).
    apply (slots_of_complete rpc distinct_children); [done|].
    rewrite <- Hperm. rewrite Permutation_app_comm. simpl.
    constructor. symmetry. apply Permutation_rev. }
  assert (Hfinal :
    CheckStatus_ rpc (stored i last w') =
    Returns tt (finalized rpc ms (stored i last w'))).
  { apply CheckStatus_complete; [|done|].
    - simpl. rewrite Hcount'. unfold n_children. lia.
    - by rewrite <- Hpeers, length_fmap. }
  exists (finalized rpc ms (stored i last w')).
  destruct HI' as [[Hch Hr _ _ _] _]. destruct HQ as [Hd _ _ _ _ _].
  destruct (deleted_reduce_events r ms v) as (Hdel & Hdone & Hcalls).
  assert (Htr : trace (finalized rpc ms (stored i last w')) =
      [EvInit ch; EvRegister ch] ++ (EvDonePeer ∘ peer <$> (front ++ [last]))
      ++ reduce_events r ms v
      ++ finalize_events rpc (this (finalized rpc ms (stored i last w')))).
  { simpl. rewrite Htrace', Hr, Hd. simpl.
    rewrite fmap_app. simpl. by rewrite <- !app_assoc. }
  split; [|split; [|split; [done|]]].
  - unfold ReduceChannel.Reduce. rewrite Hdoit.
    unfold bind at 1. rewrite deliver_app, Hrun'.
    simpl. unfold bind at 1. unfold ReduceChannel.GetTransaction.
    rewrite (HandleMessage_stores rpc last w' i Hf Hfree), Hfinal.
    unfold bind, ret. by simpl.
  - simpl. by rewrite Hr, Hd.
  - assert (Hq : forall l : list Message,
              deleted (U := TData * TData) (EvDonePeer ∘ peer <$> l) = [] /\
              done_peers (U := TData * TData) (EvDonePeer ∘ peer <$> l) =
                peer <$> l /\
              calls (U := TData * TData) (EvDonePeer ∘ peer <$> l) = []).
    { induction l as [|x l (IH1 & IH2 & IH3)]; [done|].
      rewrite !fmap_cons. unfold deleted, done_peers, calls in *. simpl.
      split; [exact IH1|]. split; [f_equal; exact IH2|exact IH3]. }
    destruct (Hq (front ++ [last])) as (Hq1 & Hq2 & Hq3).
    assert (Hfin : forall st,
              deleted (finalize_events rpc st) = [] /\
              done_peers (finalize_events rpc st) = [] /\
              calls (finalize_events rpc st) = []).
    { intros st. unfold finalize_events. by destruct (is_root rpc). }
    destruct (Hfin (this (finalized rpc ms (stored i last w'))))
      as (Hf1 & Hf2 & Hf3).
    rewrite Htr. unfold deleted, done_peers, calls in *.
    rewrite !omap_app, Hdel, Hdone, Hq1, Hq2, Hq3, Hf1, Hf2, Hf3.
    rewrite !length_app, Hcalls, <- Hpeers, length_fmap. simpl.
    rewrite !app_nil_r. split; [done|]. split; [done|lia].
Qed.
(** X6: when a message of every child has arrived, in whatever order,
    [rpc::Reduce] on a process with children returns, and its trace is:
    [Init], [Register], one [Done(peer)] per message in the order of
    arrival, then for every child by increasing index the thaw of its
    message, the call of the reductor and the deletion of the message, then
    the finalisation.  Every message is deleted once, and the reductor is
    called once per child. *)
Theorem Reduce_complete_trace ch (r : TReductor TData) v ms
    (arrival : list Message) :
  children rpc <> [] ->
  peer <$> ms = children rpc -> arrival ≡ₚ ms ->
  exists w,
    ReduceChannel.Reduce rpc ch r v arrival = Returns tt w /\
    data_ (this w) = reduced r ms v /\
    trace w =
      [EvInit ch; EvRegister ch] ++ (EvDonePeer ∘ peer <$> arrival) ++
      reduce_events r ms v ++ finalize_events rpc (this w) /\
    deleted (trace w) = ms /\
    done_peers (trace w) = peer <$> arrival /\
    length (calls (trace w)) = length (children rpc).
Proof. exact (Reduce_complete_run ch r v ms arrival). Qed.

Lemma registered_after_app {U} (tr1 tr2 : list (Event U)) ch b :
  registered_after (tr1 ++ tr2) ch b =
  registered_after tr2 ch (registered_after tr1 ch b).
Proof. apply fold_left_app. Qed.

Lemma done_events_quiet (l : list Message) :
  signals (U := TData * TData) (EvDonePeer ∘ peer <$> l) = 0%nat /\
  sent (U := TData * TData) (EvDonePeer ∘ peer <$> l) = [] /\
  unregistered (U := TData * TData) (EvDonePeer ∘ peer <$> l) = [] /\
  calls (U := TData * TData) (EvDonePeer ∘ peer <$> l) = [] /\
  forall ch b,
    registered_after (U := TData * TData) (EvDonePeer ∘ peer <$> l) ch b = b.
Proof.
  induction l as [|m l (IH1 & IH2 & IH3 & IH4 & IH5)]; [done|].
  rewrite fmap_cons. repeat split; done.
Qed.

Lemma reduce_events_registered (r : TReductor TData) ms ch b : forall acc,
  registered_after (reduce_events r ms acc) ch b = b.
Proof.
  induction ms as [|m ms IH]; intros acc; [done|].
  cbn [reduce_events]. rewrite registered_after_app. apply IH.
Qed.

Lemma finalize_events_summary (st : Members TData) :
  signals (finalize_events rpc st) = 1%nat /\
  sent (finalize_events rpc st) =
    (if is_root rpc then [] else [upward_message rpc st]) /\
  unregistered (finalize_events rpc st) = [channel_ st] /\
  forall b, registered_after (finalize_events rpc st) (channel_ st) b = false.
Proof.
  unfold finalize_events, registered_after.
  destruct (is_root rpc); simpl; by rewrite Z.eqb_refl.
Qed.

(** When [rpc::Reduce] returns, [Wait] has returned. *)
Lemma Reduce_returns_Wait ch (r : TReductor TData) v arrival w :
  ReduceChannel.Reduce rpc ch r v arrival = Returns tt w ->
  Wait w = Returns tt w.
Proof.
  assert (Hwait : forall w0, Wait w0 = Returns tt w -> Wait w = Returns tt w).
  { intros w0. unfold Wait. destruct (cond_ (this w0)) eqn:Hc; [|done].
    intros Heq. injection Heq as <-. by rewrite Hc. }
  assert (Hlate : forall w1,
    (run ReduceChannel.deliver rpc arrival; Wait) w1 = Returns tt w ->
    Wait w = Returns tt w).
  { intros w1. unfold bind.
    destruct (ReduceChannel.deliver rpc arrival w1) as [[] w2| | |];
      try done.
    apply Hwait. }
  unfold ReduceChannel.Reduce, ReduceChannel.Doit, ReduceChannel.Wait.
  destruct (ReduceChannel.Init rpc ch r v) as [[] w0|d w0|w0|]; try done.
  - destruct (Wait w0) as [[] w1|d w1|w1|] eqn:Hw0; try done.
    + intros Heq. injection Heq as ->. by apply (Hwait w0).
    + apply Hlate.
  - apply Hlate.
Qed.

(** C5: on every process the finalisation runs once, and only when a
    message of every child is stored.  While the message of a child is
    missing, [rpc::Reduce] stays suspended: the condition is not set,
    nothing was sent or unregistered, the reductor was not called, and the
    channel is registered.  When a message of every child has arrived, in
    whatever order, [rpc::Reduce] returns: the condition was set once and
    [Wait] returns, the accumulator is the contribution with the
    children's values reduced into it by increasing index, a process that is
    not the root has sent one message, to its parent, holding the frozen
    accumulator, the root has sent none, and [rpc::Unregister] was called
    once.  On a process with children the channel is then unregistered.  On
    a process without children the finalisation runs inside [Init], before
    [rpc::Register]: the channel is registered when [rpc::Reduce] returns.
    In every state the transaction reaches the condition was set at most
    once, and it was set exactly when every slot is filled. *)
Theorem reduce_finalizes_once `{!FreezableLaws TData}
    ch (r : TReductor TData) v ms (registered : bool) :
  peer <$> ms = children rpc ->
  (forall arrival,
     NoDup (peer <$> arrival) ->
     (forall m, m ∈ arrival -> peer m ∈ children rpc) ->
     (length arrival < length (children rpc))%nat ->
     exists w,
       ReduceChannel.Reduce rpc ch r v arrival = Blocks w /\
       signals (trace w) = 0%nat /\
       sent (trace w) = [] /\
       unregistered (trace w) = [] /\
       calls (trace w) = [] /\
       registered_after (trace w) ch registered = true) /\
  (forall arrival, arrival ≡ₚ ms ->
     exists w,
       ReduceChannel.Reduce rpc ch r v arrival = Returns tt w /\
       signals (trace w) = 1%nat /\
       Wait w = Returns tt w /\
       data_ (this w) = reduced r ms v /\
       sent (trace w) =
         (if is_root rpc then []
          else [mkMessage ch (parent rpc)
                  (PointerFreeze (reduced r ms v))]) /\
       unregistered (trace w) = [ch] /\
       (children rpc <> [] ->
          registered_after (trace w) ch registered = false) /\
       (children rpc = [] ->
          registered_after (trace w) ch registered = true)) /\
  (forall w, reachable rpc ch r v w ->
     (signals (trace w) <= 1)%nat /\
     (signals (trace w) = 1%nat <-> Forall is_Some (received_ (this w)))).
Proof.
  intros Hpeers. split; [|split].
  - intros arrival Hnd Hknown Hfew.
    destruct (Reduce_partial_run ch r v arrival Hnd Hknown Hfew)
      as (w & Hrun & _ & _ & Htrace).
    destruct (done_events_quiet arrival) as (Hs & Hm & Hu & Hc & Hreg).
    exists w. split; [done|]. rewrite Htrace.
    rewrite signals_app, sent_app, unregistered_app, calls_app, Hs, Hm, Hu, Hc.
    rewrite registered_after_app, Hreg. unfold registered_after. simpl.
    by rewrite Z.eqb_refl.
  - intros arrival Hperm.
    destruct (Reduce_run rpc distinct_children ch r v ms arrival Hpeers Hperm)
      as (w & Hrun & Hdata & Hch & Hsent).
    exists w. split; [done|].
    assert (Hwait := Reduce_returns_Wait ch r v arrival w Hrun).
    destruct (finalize_events_summary (this w)) as (Hfs & _ & Hfu & Hfr).
    rewrite Hch in Hfu, Hfr.
    assert (Hup : sent (trace w) =
              if is_root rpc then []
              else [mkMessage ch (parent rpc)
                      (PointerFreeze (reduced r ms v))]).
    { rewrite Hsent. destruct (is_root rpc); [done|].
      unfold upward_message. by rewrite write_data_exact, Hch, Hdata. }
    destruct (decide (children rpc = [])) as [Hnil|Hkids].
    + destruct (Reduce_childless rpc ch r v arrival Hnil)
        as (w' & Hrun' & Htrace & _).
      rewrite Hrun in Hrun'. injection Hrun' as <-.
      assert (Hsig : signals (trace w) = 1%nat).
      { by rewrite Htrace, !signals_app, Hfs. }
      assert (Hunr : unregistered (trace w) = [ch]).
      { by rewrite Htrace, !unregistered_app, Hfu. }
      assert (Hreg : registered_after (trace w) ch registered = true).
      { rewrite Htrace, !registered_after_app. unfold registered_after at 1.
        simpl. by rewrite Z.eqb_refl. }
      by repeat split.
    + destruct (Reduce_complete_run ch r v ms arrival Hkids Hpeers Hperm)
        as (w' & Hrun' & _ & Htrace & _).
      rewrite Hrun in Hrun'. injection Hrun' as <-.
      destruct (done_events_quiet arrival) as (Hs & _ & Hu & _ & Hreg).
      destruct (reduce_events_quiet r ms v) as (Hrs & _ & Hru).
      assert (Hregistered :
        registered_after (trace w) ch registered = false).
      { rewrite Htrace, !registered_after_app. apply Hfr. }
      assert (Hsig : signals (trace w) = 1%nat).
      { by rewrite Htrace, !signals_app, Hs, Hrs, Hfs. }
      assert (Hunr : unregistered (trace w) = [ch]).
      { by rewrite Htrace, !unregistered_app, Hu, Hru, Hfu. }
      by repeat split.
  - intros w Hreach.
    apply reachable_Inv in Hreach as [[Hch Hr Hl Hc Hp] HF].
    assert (Hall : n_received_ (this w) = n_children rpc <->
                   Forall is_Some (received_ (this w))).
    { unfold n_children. split.
      - intros Hn.
        destruct (filled_all (received_ (this w))) as [ms' ->]; [lia|].
        apply Forall_fmap, Forall_forall. intros m _. by exists m.
      - intros Hsome. by rewrite Hc, <- Hl, filled_Forall. }
    destruct (Z.eqb_spec (n_received_ (this w)) (n_children rpc)) as [Heq|Hne].
    + destruct HF as [_ _ Hsig _ _]. rewrite Hsig.
      split; [lia|]. by split; [intros _; apply Hall|].
    + destruct HF as [_ _ Hsig _ _ _]. rewrite Hsig.
      split; [lia|]. split; [done|]. intros Hsome. by apply Hall in Hsome.
Qed.
End ReduceRunMore.

Lemma root_of_two_distinct : NoDup (children root_of_two).
Proof. simpl. apply (bool_decide_unpack _). by compute. Qed.

Lemma inner_of_two_distinct : NoDup (children inner_of_two).
Proof. simpl. apply (bool_decide_unpack _). by compute. Qed.

(** C5 at the process below process 0 with the children 3 and 4, when only
    process 4 has reported and when process 4 reports before process 3,
    and at the leaf below process 0, where the channel ends registered. *)
Lemma reduce_finalizes_once_witness :
  (exists w,
     ReduceChannel.Reduce inner_of_two 7 append_reductor [Byte.x72]
       [mkMessage 7 4 [Byte.x62]] = Blocks w /\
     signals (trace w) = 0%nat /\
     sent (trace w) = [] /\
     unregistered (trace w) = [] /\
     calls (trace w) = [] /\
     registered_after (trace w) 7 false = true) /\
  (exists w,
     ReduceChannel.Reduce inner_of_two 7 append_reductor [Byte.x72]
       [mkMessage 7 4 [Byte.x62]; mkMessage 7 3 [Byte.x61]] = Returns tt w /\
     signals (trace w) = 1%nat /\
     ReduceTransaction.Wait w = Returns tt w /\
     ReduceTransaction.data_ (this w) = [Byte.x72; Byte.x61; Byte.x62] /\
     sent (trace w) = [mkMessage 7 0 [Byte.x72; Byte.x61; Byte.x62]] /\
     unregistered (trace w) = [7] /\
     registered_after (trace w) 7 false = false) /\
  (exists w,
     ReduceChannel.Reduce leaf_below_0 7 append_reductor [Byte.x61] [] =
       Returns tt w /\
     signals (trace w) = 1%nat /\
     sent (trace w) = [mkMessage 7 0 [Byte.x61]] /\
     unregistered (trace w) = [7] /\
     registered_after (trace w) 7 false = true).
Proof.
  destruct (reduce_finalizes_once inner_of_two inner_of_two_distinct 7
              append_reductor [Byte.x72]
              [mkMessage 7 3 [Byte.x61]; mkMessage 7 4 [Byte.x62]] false
              eq_refl) as (Hpart & Hall & _).
  destruct (reduce_finalizes_once leaf_below_0 (NoDup_nil_2 (A := Z)) 7
              append_reductor [Byte.x61] [] false eq_refl)
    as (_ & Hleaf & _).
  split; [|split].
  - apply Hpart.
    + simpl. apply (bool_decide_unpack _). by compute.
    + intros m Hm. apply list_elem_of_singleton in Hm as ->.
      simpl. rewrite !elem_of_cons. lia.
    + simpl. lia.
  - destruct (Hall [mkMessage 7 4 [Byte.x62]; mkMessage 7 3 [Byte.x61]])
      as (w & Hrun & Hsig & Hwait & Hdata & Hsent & Hunr & Hreg & _).
    { apply perm_swap. }
    exists w. split; [exact Hrun|]. split; [exact Hsig|].
    split; [exact Hwait|]. split; [exact Hdata|]. split; [exact Hsent|].
    split; [exact Hunr|]. apply Hreg. discriminate.
  - destruct (Hleaf []) as (w & Hrun & Hsig & _ & _ & Hsent & Hunr & _ & Hreg).
    { reflexivity. }
    exists w. split; [exact Hrun|]. split; [exact Hsig|].
    split; [exact Hsent|]. split; [exact Hunr|]. by apply Hreg.
Defined.

(** X5 at the root of two children when only process 2 has reported. *)
Lemma Reduce_waits_for_all_witness :
  exists w,
    ReduceChannel.Reduce root_of_two 7 append_reductor [Byte.x72]
      [mkMessage 7 2 [Byte.x62]] = Blocks w /\
    ReduceTransaction.data_ (this w) = [Byte.x72] /\
    ReduceTransaction.n_received_ (this w) = 1 /\
    trace w = [EvInit 7; EvRegister 7; EvDonePeer 2].
Proof.
  apply (Reduce_waits_for_all root_of_two root_of_two_distinct 7
           append_reductor [Byte.x72] [mkMessage 7 2 [Byte.x62]]).
  - simpl. apply (bool_decide_unpack _). by compute.
  - intros m Hm. apply list_elem_of_singleton in Hm as ->.
    simpl. rewrite !elem_of_cons. lia.
  - simpl. lia.
Defined.

(** X6 at the root of two children when process 2 reports before
    process 1. *)
Lemma Reduce_complete_trace_witness :
  exists w,
    ReduceChannel.Reduce root_of_two 7 append_reductor [Byte.x72]
      [mkMessage 7 2 [Byte.x62]; mkMessage 7 1 [Byte.x61]] = Returns tt w /\
    ReduceTransaction.data_ (this w) =
      ReduceSpec.reduced append_reductor
        [mkMessage 7 1 [Byte.x61]; mkMessage 7 2 [Byte.x62]] [Byte.x72] /\
    trace w =
      [EvInit 7; EvRegister 7] ++
      (EvDonePeer ∘ peer <$>
         [mkMessage 7 2 [Byte.x62]; mkMessage 7 1 [Byte.x61]]) ++
      ReduceSpec.reduce_events append_reductor
        [mkMessage 7 1 [Byte.x61]; mkMessage 7 2 [Byte.x62]] [Byte.x72] ++
      ReduceSpec.finalize_events root_of_two (this w) /\
    deleted (trace w) =
      [mkMessage 7 1 [Byte.x61]; mkMessage 7 2 [Byte.x62]] /\
    done_peers (trace w) =
      peer <$> [mkMessage 7 2 [Byte.x62]; mkMessage 7 1 [Byte.x61]] /\
    length (calls (trace w)) = length (children root_of_two).
Proof.
  apply (Reduce_complete_trace root_of_two root_of_two_distinct 7
           append_reductor [Byte.x72]
           [mkMessage 7 1 [Byte.x61]; mkMessage 7 2 [Byte.x62]]
           [mkMessage 7 2 [Byte.x62]; mkMessage 7 1 [Byte.x61]]).
  - discriminate.
  - reflexivity.
  - apply perm_swap.
Defined.

(** X7: on a process without children the finalisation runs inside
    [ReduceTransaction::Init], before [ReduceChannel::Init] registers the
    channel: [rpc::Unregister] is called once, [rpc::Register] after it, and
    [Register] is the last call of the whole reduction. *)
Theorem Reduce_without_children_registers_last
    {TData : Type} `{Freezable TData} (rpc : Topology) ch
    (r : ReduceTransaction.TReductor TData) v (arrivals : list Message) :
  children rpc = [] ->
  exists w,
    ReduceChannel.Reduce rpc ch r v arrivals = Returns tt w /\
    trace w =
      [EvInit ch] ++ ReduceSpec.finalize_events rpc (this w) ++
      [EvRegister ch] /\
    unregistered (trace w) = [ch] /\
    last (trace w) = Some (EvRegister ch).
Proof.
  destruct rpc as [kids root up]. simpl. intros ->.
  unfold ReduceChannel.Reduce, ReduceChannel.Doit, ReduceChannel.Init,
    ReduceTransaction.Init, ReduceTransaction.CheckStatus_.
  destruct root; eexists; (split; [reflexivity|]); by repeat split.
Qed.

(** X7 at a root without children. *)
Lemma Reduce_without_children_registers_last_witness :
  exists w,
    ReduceChannel.Reduce single_root 7 append_reductor [Byte.x72] [] =
      Returns tt w /\
    trace w =
      [EvInit 7] ++ ReduceSpec.finalize_events single_root (this w) ++
      [EvRegister 7] /\
    unregistered (trace w) = [7] /\
    last (trace w) = Some (EvRegister 7).
Proof.
  exact (Reduce_without_children_registers_last single_root 7 append_reductor
           [Byte.x72] [] eq_refl).
Defined.

(** ** More on the reduction over the tree *)

Section TreeMore.
Import ReduceTransaction ReduceSpec Tree.
Context {TData : Type} {F : Freezable TData} {L : FreezableLaws TData}.

Implicit Types (t : Tree TData) (up : option Z).

Lemma processes_distinct_siblings t :
  distinct_siblings t ->
  forall up up' t', (up', t') ∈ processes up t -> distinct_siblings t'.
Proof.
  induction t as [me v kids IH] using Tree_ind'.
  intros Hwf up up' t' Hin. simpl in Hin.
  apply elem_of_cons in Hin as [Heq|Hin]; [by injection Heq as -> ->|].
  inversion Hwf as [me' v' kids' _ Hkids]; subst.
  apply list_elem_of_In, in_flat_map in Hin as (k & Hk & Hin).
  apply list_elem_of_In in Hk, Hin.
  rewrite Forall_forall in IH, Hkids.
  exact (IH k Hk (Hkids k Hk) (Some me) up' t' Hin).
Qed.

Lemma processes_below (p : Z) t :
  forall up' t', (up', t') ∈ processes (Some p) t -> exists q, up' = Some q.
Proof.
  revert p. induction t as [me v kids IH] using Tree_ind'.
  intros p up' t' Hin. simpl in Hin.
  apply elem_of_cons in Hin as [Heq|Hin]; [injection Heq as -> _; by exists p|].
  apply list_elem_of_In, in_flat_map in Hin as (k & Hk & Hin).
  apply list_elem_of_In in Hk, Hin.
  rewrite Forall_forall in IH. exact (IH k Hk me up' t' Hin).
Qed.

(** X8: in a reduction over a tree of [N] processes with any reductor,
    associative or not, every process returns with the value of its
    subtree, every process but the root sends one message, to its parent,
    holding that value frozen, and the root sends none: [N - 1] messages in
    all. *)
Theorem reduce_tree_everywhere arrival ch (r : TReductor TData) t :
  (forall me inbox, arrival me inbox ≡ₚ inbox) ->
  distinct_siblings t ->
  (forall up' t', (up', t') ∈ processes None t ->
     exists w,
       reduce_tree arrival ch r up' t' = Returns tt w /\
       data_ (this w) = subtree_result r t' /\
       sent (trace w) =
         match up' with
         | None => []
         | Some p => [mkMessage ch p (PointerFreeze (subtree_result r t'))]
         end) /\
  S (length (all_sent arrival ch r t)) = length (processes None t).
Proof.
  intros Harrival Hwf.
  assert (Hall : forall up up' t', (up', t') ∈ processes up t ->
    exists w,
      reduce_tree arrival ch r up' t' = Returns tt w /\
      data_ (this w) = subtree_result r t' /\
      sent (trace w) =
        match up' with
        | None => []
        | Some p => [mkMessage ch p (PointerFreeze (subtree_result r t'))]
        end).
  { intros up up' t' Hin.
    apply (reduce_tree_result arrival ch r Harrival t').
    by eapply processes_distinct_siblings. }
  split; [apply Hall|].
  unfold all_sent. destruct t as [me v kids]. simpl.
  destruct (Hall None None (Node me v kids)) as (w & Hrun & _ & Hsent).
  { simpl. apply elem_of_cons. by left. }
  cbn [reduce_tree] in Hrun. rewrite Hrun. simpl. rewrite Hsent. simpl.
  f_equal.
  assert (Hbelow : forall q, q ∈ flat_map (processes (Some me)) kids ->
            (exists p, fst q = Some p) /\ q ∈ processes None (Node me v kids)).
  { intros [up' t'] Hq. split.
    - apply list_elem_of_In, in_flat_map in Hq as (k & Hk & Hq).
      apply list_elem_of_In in Hq. simpl.
      by apply (processes_below me k up' t').
    - simpl. apply elem_of_cons. by right. }
  induction (flat_map (processes (Some me)) kids) as [|[up' t'] qs IH];
    [done|].
  simpl. destruct (Hbelow (up', t')) as [[p Hp] Hin];
    [apply elem_of_cons; by left|]. simpl in Hp. subst up'.
  destruct (Hall None (Some p) t' Hin) as (w' & Hrun' & _ & Hsent').
  rewrite Hrun'. simpl. rewrite Hsent'.
  simpl. f_equal. apply IH. intros q Hq. apply Hbelow, elem_of_cons. by right.
Qed.
End TreeMore.

(** X8 at the three processes that contribute strings. *)
Lemma reduce_tree_everywhere_witness :
  (forall up' t', (up', t') ∈ Tree.processes None three_strings ->
     exists w,
       Tree.reduce_tree (fun _ inbox => rev inbox) 7 append_reductor up' t' =
         Returns tt w /\
       ReduceTransaction.data_ (this w) =
         Tree.subtree_result append_reductor t' /\
       sent (trace w) =
         match up' with
         | None => []
         | Some p =>
             [mkMessage 7 p
                (PointerFreeze (Tree.subtree_result append_reductor t'))]
         end) /\
  S (length (all_sent (fun _ inbox => rev inbox) 7 append_reductor
               three_strings)) =
  length (Tree.processes None three_strings).
Proof.
  apply (reduce_tree_everywhere (fun _ inbox => rev inbox) 7 append_reductor
           three_strings).
  - apply rev_arrival_Permutation.
  - apply three_strings_distinct.
Defined.

(** ** More on the client call *)

Section ClientMore.
Import RpcRequestTransaction.
Context {RequestObject : Type} {FQ : Freezable RequestObject}.

Implicit Types (w : W) (ticks : list Tick).

Lemma Doit_send_resets (channel peer : Z) (request : RequestObject) w :
  exists w', Doit_send channel peer request w = Returns tt w' /\
             response (this w') = None /\
             trace w' =
               trace w ++
               [EvInit channel;
                EvCreateMessage peer (PointerFrozenSize request);
                EvFreeze (PointerFreeze request);
                EvSend (write_data (PointerFreeze request)
                          (CreateMessage channel peer
                             (PointerFrozenSize request)))].
Proof.
  eexists. unfold Doit_send, Doit_prepare, bind, emit, set_this, ret. simpl.
  split; [reflexivity|]. split; [done|]. simpl. by rewrite <- !app_assoc.
Qed.

(** X10: a wake-up of the calling thread before any delivery does not end
    the call; the call returns at the first wake-up after a delivery, with
    the message that was delivered last before it, whatever the
    transaction held when [Doit] was entered. *)
Theorem Doit_returns_latest (channel peer : Z) (request : RequestObject)
    (spurious : nat) (ms : list Message) (m : Message) ticks w :
  (exists w',
     Doit channel peer request (replicate spurious Wake) w = Blocks w') /\
  (exists w',
     Doit channel peer request
       (replicate spurious Wake ++ (Deliver <$> ms) ++
        Deliver m :: Wake :: ticks) w =
     Returns m w').
Proof.
  destruct (Doit_send_resets channel peer request w) as (w1 & Hsend & Hnone & _).
  unfold Doit, bind. rewrite Hsend. split.
  - destruct (Doit_wait_spurious spurious [] false w1 Hnone)
      as (locked' & w' & _ & Hrun).
    rewrite app_nil_r in Hrun. rewrite Hrun. by exists w'.
  - destruct (Doit_wait_spurious spurious
                ((Deliver <$> ms) ++ Deliver m :: Wake :: ticks) false w1 Hnone)
      as (locked' & w' & _ & Hrun).
    rewrite Hrun. apply Doit_wait_latest.
Qed.
End ClientMore.

(** ** Fetching remote data *)

Lemma arriving_single {S U A} (sender dest : Z) (a : A) (w : World S U)
    (m : Message) :
  sent (trace w) = [m] -> peer m = dest ->
  arriving sender dest (Returns a w) = [received_from sender m].
Proof.
  intros Hsent Hpeer. unfold arriving. rewrite Hsent.
  by rewrite filter_cons_True, filter_nil by done.
Qed.

Section RemoteDataProperties.
Import RemoteData.
Context {T : Type} {FQ : Freezable DataGetterRequest}.
Context {FT : Freezable T} {LT : FreezableLaws T}.

(** X9: [rpc::GetRemoteData] against a [DataGetterBackend] returns the value
    that the backend holds, whatever the request thaws to at the server,
    whatever the response was constructed as, and however often the calling
    thread wakes up before the reply is delivered; the client sends one
    message, and the response message is deleted once, after it was thawed
    and copied. *)
Theorem GetRemoteData_fetches (client server ch : Z)
    (held real_response : T) (st : RpcRequestTransaction.Members)
    (early : nat) (rest : list Tick) :
  let reply := mkMessage ch server (PointerFreeze held) in
  exists w before,
    fetch client server ch held real_response st early rest =
      Returns held w /\
    length (sent (trace w)) = 1%nat /\
    deleted (trace w) = [reply] /\
    trace w = before ++ [EvThaw reply; EvDelete reply].
Proof.
  intros reply. unfold fetch.
  destruct (Doit_send_resets ch server (mkDataGetterRequest GET_DATA)
              (mkWorld st [])) as (w1 & Hsend & Hnone & Htrace).
  simpl in Htrace.
  set (request := mkDataGetterRequest GET_DATA) in *.
  set (sent_request :=
         write_data (PointerFreeze request)
           (CreateMessage ch server (PointerFrozenSize request))) in *.
  assert (Hrequests :
    arriving client server
      (RpcRequestTransaction.Doit_send ch server request (mkWorld st []))
    = [received_from client sent_request]).
  { rewrite Hsend. unfold arriving. rewrite Htrace.
    change (sent _) with [sent_request].
    by rewrite filter_cons_True, filter_nil by done. }
  rewrite Hrequests. cbn [flat_map]. rewrite app_nil_r.
  rewrite (HandleMessage_replies (DataGetterBackend.Init held)
             real_response held) by done.
  rewrite (arriving_single server client tt _
             (mkMessage ch client (PointerFreeze held)))
    by done.
  change (received_from server (mkMessage ch client (PointerFreeze held)))
    with reply.
  clear Hrequests.
  destruct (Doit_wait_resumes early [] reply rest false w1 Hnone)
    as [w2 Hwait].
  change ((Deliver <$> []) ++ ?l) with l in Hwait.
  change ((Deliver <$> [reply]) ++ ?l) with (Deliver reply :: l).
  destruct (Doit_wait_quiet _ _ _ _ _ Hwait) as [Hsent2 Hdel2].
  rewrite Htrace in Hsent2, Hdel2.
  unfold GetRemoteData, Rpc_destructor, Rpc.Request,
    RpcRequestTransaction.Doit.
  unfold bind at 1. unfold bind at 1. unfold bind at 1.
  subst sent_request request. rewrite Hsend, Hwait.
  unfold bind, emit, ret. simpl. rewrite thaw_freeze.
  exists (mkWorld (this w2)
            ((trace w2 ++ [EvThaw reply]) ++ [EvDelete reply])),
         (trace w2).
  split; [done|]. simpl.
  unfold sent, deleted in *. rewrite !omap_app, Hsent2, Hdel2. simpl.
  split; [done|]. split; [done|]. by rewrite <- app_assoc.
Qed.
End RemoteDataProperties.

(** X9 when process 3 fetches the byte that process 5 holds and its
    thread wakes up twice before the reply is delivered. *)
Lemma GetRemoteData_fetches_witness :
  exists w before,
    RemoteData.fetch 3 5 9 [Byte.x05] []
      (RpcRequestTransaction.mkMembers 0 None) 2 [Wake] =
      Returns [Byte.x05] w /\
    length (sent (trace w)) = 1%nat /\
    deleted (trace w) = [mkMessage 9 5 [Byte.x05]] /\
    trace w = before ++ [EvThaw (mkMessage 9 5 [Byte.x05]);
                         EvDelete (mkMessage 9 5 [Byte.x05])].
Proof.
  exact (GetRemoteData_fetches 3 5 9 [Byte.x05] []
           (RpcRequestTransaction.mkMembers 0 None) 2 [Wake]).
Defined.

(** ** The dictionary encoding policy *)

#[export] Instance DenseMatrix_MatTypeLaws : MatTypeLaws DenseMatrix Z.
Proof.
  split; try done.
  - intros m i j x _ _. simpl. by rewrite !Nat.eqb_refl.
  - intros m i j x i' j' Hne. simpl.
    destruct (Nat.eqb_spec i' i) as [->|]; [|done].
    destruct (Nat.eqb_spec j' j) as [->|]; [|done]. done.
Qed.

Section DictionaryProperties.
Import DictionaryEncodingPolicy.
Context {Mat Elem : Type} {MT : MatType Mat Elem} {ML : MatTypeLaws Mat Elem}.

Lemma Encode_vector_all (values : list N) : forall output,
  fold_left Encode_vector values output = output ++ values.
Proof.
  induction values as [|v values IH]; intros output; simpl.
  - by rewrite app_nil_r.
  - rewrite IH. unfold Encode_vector. by rewrite <- app_assoc.
Qed.

Lemma encode_tokens_at (values : list N) : forall (output : Mat) row col,
  (row < n_rows output)%nat ->
  (col + length values <= n_cols output)%nat ->
  let out := encode_tokens output row col values in
  n_rows out = n_rows output /\ n_cols out = n_cols output /\
  forall i j,
    mat_at out i j =
    if decide (i = row /\ col <= j < col + length values)%nat
    then of_size_t (default 0%N (values !! (j - col)%nat))
    else mat_at output i j.
Proof.
  induction values as [|v values IH]; intros output row col Hrow Hcol out.
  - subst out. simpl. split; [done|]. split; [done|]. intros i j.
    rewrite decide_False; [done|]. simpl. lia.
  - subst out. simpl in *.
    destruct (IH (Encode output v row col) row (S col)) as (Hr & Hc & Hat).
    { unfold Encode. by rewrite assign_rows. }
    { unfold Encode. rewrite assign_cols. lia. }
    unfold Encode in *. rewrite assign_rows in Hr. rewrite assign_cols in Hc.
    split; [done|]. split; [done|]. intros i j. rewrite Hat.
    destruct (decide (i = row /\ S col <= j < S col + length values)%nat)
      as [[-> Hj]|Hnot].
    + rewrite decide_True by lia.
      replace (j - col)%nat with (S (j - S col)) by lia. done.
    + destruct (decide (i = row /\ j = col)) as [[-> ->]|Hne].
      * rewrite decide_True by lia. rewrite Nat.sub_diag. simpl.
        apply assign_at; lia.
      * rewrite decide_False by lia.
        apply assign_other. intros Heq. injection Heq as -> ->. by apply Hne.
Qed.

(** X11: after [InitMatrix] and the encoding of the tokens of one string at
    the columns from 0 on, the element at column [j] of the row of the
    string is the conversion to the element type, [of_size_t], of the
    [j]-th token that the overload for vectors collects, and zero from the
    number of tokens up to [maxNumTokens]; every other row is zero.
    Nothing is assumed of the conversion: where it rounds, as for
    [double], the row holds the rounded tokens.  Neither the former
    contents of the matrix nor [dictionarySize] matter. *)
Theorem encode_row_padded (output : Mat)
    (datasetSize maxNumTokens dictionarySize row : nat) (values : list N) :
  (row < datasetSize)%nat ->
  (length values <= maxNumTokens)%nat ->
  let out :=
    encode_tokens (InitMatrix output datasetSize maxNumTokens dictionarySize)
      row 0 values in
  let encoded := fold_left Encode_vector values [] in
  encoded = values /\
  n_rows out = datasetSize /\ n_cols out = maxNumTokens /\
  forall i j, (i < datasetSize)%nat -> (j < maxNumTokens)%nat ->
    mat_at out i j =
    if decide (i = row)
    then match encoded !! j with
         | Some value => of_size_t value
         | None => zero
         end
    else zero.
Proof.
  intros Hrow Hlen out encoded.
  assert (Hencoded : encoded = values).
  { subst encoded. by rewrite Encode_vector_all. }
  rewrite Hencoded. split; [done|].
  destruct (encode_tokens_at values
              (InitMatrix output datasetSize maxNumTokens dictionarySize)
              row 0) as (Hr & Hc & Hat).
  { unfold InitMatrix. by rewrite zeros_rows. }
  { unfold InitMatrix. rewrite zeros_cols. simpl. lia. }
  fold out in Hr, Hc, Hat. unfold InitMatrix in Hr, Hc, Hat.
  rewrite zeros_rows in Hr. rewrite zeros_cols in Hc.
  split; [done|]. split; [done|]. intros i j Hi Hj. rewrite Hat.
  rewrite Nat.sub_0_r. simpl.
  destruct (decide (i = row)) as [->|Hne].
  - destruct (values !! j) as [value|] eqn:Hv.
    + rewrite decide_True; [done|].
      apply lookup_lt_Some in Hv. lia.
    + rewrite decide_False; [by apply zeros_at|].
      apply lookup_ge_None in Hv. lia.
  - rewrite decide_False by (by intros [? _]). by apply zeros_at.
Qed.
End DictionaryProperties.

(** X11 for a dataset of two strings of at most three tokens, when the
    second string has the tokens 1 and 2. *)
Lemma encode_row_padded_witness :
  let out :=
    DictionaryEncodingPolicy.encode_tokens
      (DictionaryEncodingPolicy.InitMatrix
         (mkDense 1 1 (fun _ _ => 7)) 2 3 5) 1 0 [1%N; 2%N] in
  let encoded :=
    fold_left DictionaryEncodingPolicy.Encode_vector [1%N; 2%N] [] in
  encoded = [1%N; 2%N] /\
  n_rows out = 2%nat /\ n_cols out = 3%nat /\
  forall i j, (i < 2)%nat -> (j < 3)%nat ->
    mat_at out i j =
    if decide (i = 1%nat)
    then match encoded !! j with
         | Some value => of_size_t value
         | None => zero
         end
    else zero.
Proof.
  apply (encode_row_padded (mkDense 1 1 (fun _ _ => 7)) 2 3 5 1 [1%N; 2%N]).
  - lia.
  - simpl. lia.
Defined.
